(** * DerivTradingBot (trader1.py): candle window, extrema, double top /
      double bottom detection and the single position slot.

    Prices are Python floats, i.e. IEEE 754 binary64 numbers, and are
    modelled by Rocq's primitive floats.  Candle times are integers.
    Python exceptions are modelled by a [result] type; a method of the bot
    that mutates [self] is a function from the bot's state to the new state
    and a result: what was mutated before an exception was raised stays
    mutated, as in Python.  [print] is modelled by a log of events kept in
    the state. *)

From Stdlib Require Import Floats ZArith String List Bool Arith Lia Sorted.
Import ListNotations.

(** ** Python values and exceptions *)

Inductive exn : Type :=
| KeyError (key : string)
| ValueError
| TypeError
| IndexError
| ZeroDivisionError
| OverflowError.

Inductive result (A : Type) : Type :=
| Ok (a : A)
| Raise (e : exn).

Arguments Ok {A} a.
Arguments Raise {A} e.

Definition rbind {A B : Type} (r : result A) (k : A -> result B) : result B :=
  match r with
  | Ok a => k a
  | Raise e => Raise e
  end.

Declare Scope result_scope.
Delimit Scope result_scope with result.
Notation "'let?' x ':=' r 'in' k" := (rbind r (fun x => k))
  (at level 10, x name, r at level 100, k at level 200) : result_scope.

(** A value decoded by [json.loads]; a number is given by its float value,
    the contents of arrays and objects play no role here. *)
Inductive json : Type :=
| JNull
| JBool (b : bool)
| JNumber (f : float)
| JString (s : string)
| JArray
| JObject.

(** The dict of one candle as the feed sends it (an element of
    [data['candles']], or [data['ohlc']]); [None] is a missing key. *)
Record ohlc : Type := mk_ohlc {
  raw_epoch : option Z;
  raw_open : option json;
  raw_high : option json;
  raw_low : option json;
  raw_close : option json
}.

(** An element of [self.candles]. *)
Record candle : Type := mk_candle {
  time : Z;
  open : float;
  high : float;
  low : float;
  close : float
}.

Inductive pattern_kind : Type := double_top | double_bottom.

(** The dict returned by a detector; [ref1] and [ref2] are the keys
    ['peak1'], ['peak2'] of a double top and ['trough1'], ['trough2'] of a
    double bottom. *)
Record signal : Type := mk_signal {
  pattern : pattern_kind;
  ref1 : float;
  ref2 : float;
  neckline : float;
  entry : float;
  stop_loss : float;
  take_profit : float
}.

Definition peak1 : signal -> float := ref1.
Definition peak2 : signal -> float := ref2.
Definition trough1 : signal -> float := ref1.
Definition trough2 : signal -> float := ref2.

Inductive trade_type : Type := CALL | PUT.

(** The dict stored in [self.position]. *)
Record position_t : Type := mk_position {
  pos_type : trade_type;
  pos_entry : float;
  pos_stop_loss : float;
  pos_take_profit : float
}.

(** What the bot prints, one constructor per message. *)
Inductive event : Type :=
| Loaded (n : nat)
| Analyzing (t : Z)
| DoubleTopDetected (s : signal)
| DoubleBottomDetected (s : signal)
| AlreadyInPosition
| Executing (t : trade_type)
| TradeLogged.

(** The attributes of the bot that the core reads and writes. *)
Record bot : Type := mk_bot {
  candles : list candle;
  position : option position_t;
  log : list event
}.

(** Pattern parameters set by [__init__]; the float literal [0.002] of the
    source denotes the binary64 number written out below. *)
Definition lookback_period : nat := 50.
Definition tolerance : float := 0x1.0624dd2f1a9fcp-9%float.
Definition min_candles_between : nat := 10.

(** [__init__]: no candles, no position, nothing printed. *)
Definition init : bot := mk_bot [] None [].

(** ** Methods with effects: state in, state and result out *)

Definition M (A : Type) : Type := bot -> bot * result A.

Definition ret {A : Type} (a : A) : M A := fun st => (st, Ok a).

Definition bind {A B : Type} (m : M A) (k : A -> M B) : M B :=
  fun st =>
    match m st with
    | (st', Ok a) => k a st'
    | (st', Raise e) => (st', Raise e)
    end.

Definition lift {A : Type} (r : result A) : M A := fun st => (st, r).

Definition gets {A : Type} (f : bot -> A) : M A := fun st => (st, Ok (f st)).

Definition set_candles (cs : list candle) : M unit :=
  fun st => (mk_bot cs (position st) (log st), Ok tt).

Definition set_position (p : option position_t) : M unit :=
  fun st => (mk_bot (candles st) p (log st), Ok tt).

Definition print (ev : event) : M unit :=
  fun st => (mk_bot (candles st) (position st) (log st ++ [ev]), Ok tt).

Declare Scope bot_scope.
Delimit Scope bot_scope with bot.
Notation "x <- m ;; k" := (bind m (fun x => k))
  (at level 100, m at next level, right associativity) : bot_scope.
Notation "m ;; k" := (bind m (fun _ => k))
  (at level 100, right associativity) : bot_scope.

(** ** Float and list primitives of Python *)

(** [a >= b] on floats. *)
Definition py_ge (a b : float) : bool := PrimFloat.leb b a.

(** [max(a, b)]: the first argument unless the second is greater. *)
Definition py_max (a b : float) : float := if PrimFloat.ltb a b then b else a.

(** [min(a, b)]: the first argument unless the second is smaller. *)
Definition py_min (a b : float) : float := if PrimFloat.ltb b a then b else a.

(** [max(l)] and [min(l)] on a list: [ValueError] on the empty list. *)
Definition py_max_list (l : list float) : result float :=
  match l with
  | [] => Raise ValueError
  | x :: t => Ok (fold_left py_max t x)
  end.

Definition py_min_list (l : list float) : result float :=
  match l with
  | [] => Raise ValueError
  | x :: t => Ok (fold_left py_min t x)
  end.

(** [a / b] on floats: division by a zero raises. *)
Definition py_div (a b : float) : result float :=
  if PrimFloat.eqb b 0%float then Raise ZeroDivisionError
  else Ok (PrimFloat.div a b).

(** [l[i]] for [0 <= i]. *)
Definition py_index {A : Type} (l : list A) (i : nat) : result A :=
  match nth_error l i with
  | Some x => Ok x
  | None => Raise IndexError
  end.

(** [l[-1]]. *)
Definition py_last {A : Type} (l : list A) : result A :=
  match l with
  | [] => Raise IndexError
  | x :: _ => Ok (last l x)
  end.

(** [d[key]] on a decoded dict. *)
Definition py_getitem {A : Type} (key : string) (v : option A) : result A :=
  match v with
  | Some x => Ok x
  | None => Raise (KeyError key)
  end.

(** [data[i]] where the index is in range (see [find_peaks_bounds]); the
    default is never read. *)
Definition item (data : list float) (i : nat) : float := nth i data nan.

(** [range(a, b)] for natural numbers. *)
Definition range (a b : nat) : list nat := seq a (b - a).

(** ** The bot *)

Section Bot.

(** Two functions of Python's library are parameters: [float] on a string
    ([None] when the string is not the text of a float, where Python raises
    [ValueError]) and [datetime.fromtimestamp], whose value is only printed
    and which raises outside the range of the platform. *)
Variable float_of_string : string -> option float.
Variable fromtimestamp : Z -> result unit.

(** [float(v)]. *)
Definition py_float (v : json) : result float :=
  match v with
  | JNumber f => Ok f
  | JBool b => Ok (if b then 1%float else 0%float)
  | JString s =>
      match float_of_string s with
      | Some f => Ok f
      | None => Raise ValueError
      end
  | JNull | JArray | JObject => Raise TypeError
  end.

(** The dict literal built by [process_candles] and [update_candle]: the
    keys are evaluated in the order they are written. *)
Definition make_candle (o : ohlc) : result candle :=
  (let? t := py_getitem "epoch" (raw_epoch o) in
   let? vo := py_getitem "open" (raw_open o) in
   let? fo := py_float vo in
   let? vh := py_getitem "high" (raw_high o) in
   let? fh := py_float vh in
   let? vl := py_getitem "low" (raw_low o) in
   let? fl := py_float vl in
   let? vc := py_getitem "close" (raw_close o) in
   let? fc := py_float vc in
   Ok (mk_candle t fo fh fl fc))%result.

(** [find_peaks(data, order)]. *)
Definition find_peaks (data : list float) (order : nat) : list nat :=
  filter
    (fun i =>
       forallb (fun j => py_ge (item data i) (item data (i - j)))
               (range 1 (order + 1))
       && forallb (fun j => py_ge (item data i) (item data (i + j)))
                  (range 1 (order + 1)))
    (range order (length data - order)).

(** [find_troughs(data, order)]. *)
Definition find_troughs (data : list float) (order : nat) : list nat :=
  filter
    (fun i =>
       forallb (fun j => PrimFloat.leb (item data i) (item data (i - j)))
               (range 1 (order + 1))
       && forallb (fun j => PrimFloat.leb (item data i) (item data (i + j)))
                  (range 1 (order + 1)))
    (range order (length data - order)).

(** The loop of [detect_double_top] over the pairs [peaks[i], peaks[i+1]],
    [idxs] being the values of [i] still to visit. *)
Fixpoint scan_tops (cs : list candle) (highs : list float) (peaks : list nat)
    (idxs : list nat) : result (option signal) :=
  match idxs with
  | [] => Ok None
  | i :: rest =>
      (let? peak1_idx := py_index peaks i in
       let? peak2_idx := py_index peaks (i + 1) in
       if peak2_idx - peak1_idx <? min_candles_between
       then scan_tops cs highs peaks rest
       else
         let? peak1_price := py_index highs peak1_idx in
         let? peak2_price := py_index highs peak2_idx in
         let? price_diff :=
           py_div (PrimFloat.abs (peak1_price - peak2_price)%float) peak1_price in
         if PrimFloat.leb price_diff tolerance
         then
           let? between_lows :=
             fold_right
               (fun j acc => let? c := py_index cs j in
                             let? t := acc in Ok (low c :: t))
               (Ok []) (range peak1_idx (peak2_idx + 1)) in
           let? neckline := py_min_list between_lows in
           let? last_candle := py_last cs in
           let current_price := close last_candle in
           if PrimFloat.ltb current_price neckline
           then Ok (Some (mk_signal double_top peak1_price peak2_price neckline
                            current_price
                            (py_max peak1_price peak2_price)
                            (neckline - (py_max peak1_price peak2_price - neckline))%float))
           else scan_tops cs highs peaks rest
         else scan_tops cs highs peaks rest)%result
  end.

(** [detect_double_top()], as a function of [self.candles]. *)
Definition detect_double_top (cs : list candle) : result (option signal) :=
  if length cs <? 20 then Ok None
  else
    let highs := map high cs in
    let peaks := find_peaks highs 3 in
    if length peaks <? 2 then Ok None
    else scan_tops cs highs peaks (rev (range 0 (length peaks - 1))).

Fixpoint scan_bottoms (cs : list candle) (lows : list float)
    (troughs : list nat) (idxs : list nat) : result (option signal) :=
  match idxs with
  | [] => Ok None
  | i :: rest =>
      (let? trough1_idx := py_index troughs i in
       let? trough2_idx := py_index troughs (i + 1) in
       if trough2_idx - trough1_idx <? min_candles_between
       then scan_bottoms cs lows troughs rest
       else
         let? trough1_price := py_index lows trough1_idx in
         let? trough2_price := py_index lows trough2_idx in
         let? price_diff :=
           py_div (PrimFloat.abs (trough1_price - trough2_price)%float)
                  trough1_price in
         if PrimFloat.leb price_diff tolerance
         then
           let? between_highs :=
             fold_right
               (fun j acc => let? c := py_index cs j in
                             let? t := acc in Ok (high c :: t))
               (Ok []) (range trough1_idx (trough2_idx + 1)) in
           let? neckline := py_max_list between_highs in
           let? last_candle := py_last cs in
           let current_price := close last_candle in
           if PrimFloat.ltb neckline current_price
           then Ok (Some (mk_signal double_bottom trough1_price trough2_price
                            neckline current_price
                            (py_min trough1_price trough2_price)
                            (neckline + (neckline - py_min trough1_price trough2_price))%float))
           else scan_bottoms cs lows troughs rest
         else scan_bottoms cs lows troughs rest)%result
  end.

(** [detect_double_bottom()], as a function of [self.candles]. *)
Definition detect_double_bottom (cs : list candle) : result (option signal) :=
  if length cs <? 20 then Ok None
  else
    let lows := map low cs in
    let troughs := find_troughs lows 3 in
    if length troughs <? 2 then Ok None
    else scan_bottoms cs lows troughs (rev (range 0 (length troughs - 1))).

(** [execute_trade(trade_type, signal)]: [risk_amount] and [trade_request]
    are computed and dropped, nothing is sent. *)
Definition execute_trade (ty : trade_type) (s : signal) : M unit :=
  (p <- gets position ;;
   match p with
   | Some _ => print AlreadyInPosition
   | None =>
       print (Executing ty) ;;
       set_position
         (Some (mk_position ty (entry s) (stop_loss s) (take_profit s))) ;;
       print TradeLogged
   end)%bot.

(** [analyze_patterns()]. *)
Definition analyze_patterns : M unit :=
  (cs <- gets candles ;;
   last_candle <- lift (py_last cs) ;;
   lift (fromtimestamp (time last_candle)) ;;
   print (Analyzing (time last_candle)) ;;
   dt <- lift (detect_double_top cs) ;;
   match dt with
   | Some s => print (DoubleTopDetected s) ;; execute_trade PUT s
   | None => ret tt
   end ;;
   cs' <- gets candles ;;
   db <- lift (detect_double_bottom cs') ;;
   match db with
   | Some s => print (DoubleBottomDetected s) ;; execute_trade CALL s
   | None => ret tt
   end)%bot.

(** The loop of [process_candles]: each candle is converted and appended to
    [self.candles] in turn. *)
Fixpoint append_candles (raw : list ohlc) : M unit :=
  match raw with
  | [] => ret tt
  | o :: rest =>
      (c <- lift (make_candle o) ;;
       cs <- gets candles ;;
       set_candles (cs ++ [c]) ;;
       append_candles rest)%bot
  end.

(** [process_candles(candles)]. *)
Definition process_candles (raw : list ohlc) : M unit :=
  (set_candles [] ;;
   append_candles raw ;;
   cs <- gets candles ;;
   print (Loaded (length cs)) ;;
   analyze_patterns)%bot.

(** [self.candles and self.candles[-1]['time'] == t]. *)
Definition last_time_is (cs : list candle) (t : Z) : bool :=
  match cs with
  | [] => false
  | c0 :: _ => Z.eqb (time (last cs c0)) t
  end.

(** [update_candle(ohlc)]. *)
Definition update_candle (o : ohlc) : M unit :=
  (new_candle <- lift (make_candle o) ;;
   cs <- gets candles ;;
   if last_time_is cs (time new_candle)
   then set_candles (removelast cs ++ [new_candle])
   else
     set_candles (cs ++ [new_candle]) ;;
     cs1 <- gets candles ;;
     (if lookback_period <? length cs1
      then set_candles (tl cs1)
      else ret tt) ;;
     analyze_patterns)%bot.

(** Feeding a sequence of [ohlc] messages, whatever each update returns. *)
Definition feed (os : list ohlc) (st : bot) : bot :=
  fold_left (fun st o => fst (update_candle o st)) os st.

(** The window that [update_candle] leaves when the new candle is [c]
    (see [update_candle_candles]). *)
Definition window_after (cs : list candle) (c : candle) : list candle :=
  if last_time_is cs (time c) then removelast cs ++ [c]
  else
    let cs1 := cs ++ [c] in
    if lookback_period <? length cs1 then tl cs1 else cs1.

(** ** The message callback *)

(** A message of the feed once [json.loads] has decoded it, taken to be an
    object: each of the four keys that [on_message] tests is absent
    ([None]) or present.  The values of ['authorize'] and ['error'] are
    objects of which only ['loginid'] and ['message'] are read; the inner
    option is that key. *)
Record message : Type := mk_message {
  msg_authorize : option (option json);
  msg_candles : option (list ohlc);
  msg_ohlc : option ohlc;
  msg_error : option (option json)
}.

(** The request built by [subscribe_candles]. *)
Record request : Type := mk_request {
  ticks_history : string;
  adjust_start_time : Z;
  count : nat;
  end_ : string;
  start : Z;
  style : string;
  granularity : Z;
  subscribe : Z
}.

(** What the callbacks print, apart from the log of the core. *)
Inductive notice : Type :=
| Authorized (loginid : json)
| Subscribed
| ErrorMessage (m : json).

(** The bot with its symbol and its socket: [ws.send] is modelled by the
    list of the requests sent so far. *)
Record session : Type := mk_session {
  core : bot;
  symbol : string;
  sent : list request;
  notices : list notice
}.

(** [subscribe_candles()]. *)
Definition subscribe_candles (s : session) : session * result unit :=
  let request :=
    mk_request (symbol s) 1 lookback_period "latest" 1 "candles" 300 1 in
  (mk_session (core s) (symbol s) (sent s ++ [request])
              (notices s ++ [Subscribed]),
   Ok tt).

(** A method of the core, run on the bot of the session. *)
Definition on_core (m : M unit) (s : session) : session * result unit :=
  let (b, r) := m (core s) in
  (mk_session b (symbol s) (sent s) (notices s), r).

(** [on_message(ws, message)], from the decoded [data] on. *)
Definition on_message (data : message) (s : session) : session * result unit :=
  match msg_authorize data with
  | Some authorize =>
      match py_getitem "loginid" authorize with
      | Ok loginid =>
          subscribe_candles
            (mk_session (core s) (symbol s) (sent s)
                        (notices s ++ [Authorized loginid]))
      | Raise e => (s, Raise e)
      end
  | None =>
      match msg_candles data with
      | Some raw => on_core (process_candles raw) s
      | None =>
          match msg_ohlc data with
          | Some o => on_core (update_candle o) s
          | None =>
              match msg_error data with
              | Some error =>
                  match py_getitem "message" error with
                  | Ok m =>
                      (mk_session (core s) (symbol s) (sent s)
                                  (notices s ++ [ErrorMessage m]),
                       Ok tt)
                  | Raise e => (s, Raise e)
                  end
              | None => (s, Ok tt)
              end
          end
      end
  end.

(** The messages of a connection, one call of [on_message] each, whatever
    each call returns. *)
Definition receive (msgs : list message) (s : session) : session :=
  fold_left (fun s data => fst (on_message data s)) msgs s.

(** The messages of the feed by kind. *)
Definition authorize_msg (loginid : json) : message :=
  mk_message (Some (Some loginid)) None None None.
Definition candles_msg (raw : list ohlc) : message :=
  mk_message None (Some raw) None None.
Definition ohlc_msg (o : ohlc) : message :=
  mk_message None None (Some o) None.

(** ** Predicates used in the statements *)

(** A field of an [ohlc] dict that is present and that [float] accepts. *)
Definition numeric (v : option json) : bool :=
  match v with
  | Some j => match py_float j with Ok _ => true | Raise _ => false end
  | None => false
  end.

(** A non-numeric or missing OHLC field. *)
Definition malformed (o : ohlc) : bool :=
  negb (numeric (raw_open o) && numeric (raw_high o)
        && numeric (raw_low o) && numeric (raw_close o)).

(** Strictly increasing times, and times that never decrease. *)
Fixpoint increasing (l : list Z) : bool :=
  match l with
  | a :: (b :: _) as t => (a <? b)%Z && increasing t
  | _ => true
  end.

Fixpoint nondecreasing (l : list Z) : bool :=
  match l with
  | a :: (b :: _) as t => (a <=? b)%Z && nondecreasing t
  | _ => true
  end.

(** Strictly increasing floats, with Python's [<]. *)
Fixpoint strictly_increasing (l : list float) : bool :=
  match l with
  | a :: (b :: _) as t => PrimFloat.ltb a b && strictly_increasing t
  | _ => true
  end.

(** A method that leaves an open position as it is. *)
Definition keeps_position {A : Type} (m : M A) : Prop :=
  forall st p, position st = Some p -> position (fst (m st)) = Some p.

(** ** Sample data *)

(** Five-minute candles from a list of (high, low, close), the first one at
    time [t]; the open price is taken equal to the close. *)
Fixpoint bars (t : Z) (l : list (float * float * float)) : list candle :=
  match l with
  | [] => []
  | (h, lo, c) :: rest => mk_candle t c h lo c :: bars (t + 300) rest
  end.

(** The same candles as the feed sends them. *)
Definition to_ohlc (c : candle) : ohlc :=
  mk_ohlc (Some (time c)) (Some (JNumber (open c))) (Some (JNumber (high c)))
          (Some (JNumber (low c))) (Some (JNumber (close c))).

Definition series14 : list float :=
  [1; 2; 3; 10; 3; 2; 1; 1; 2; 3; 10; 3; 2; 1]%float.

(** Candles whose highs are [series14]; low and close are half the high. *)
Definition window14 : list candle :=
  bars 0 (map (fun h => (h, h / 2, h / 2)%float) series14).

(** [window14] followed by six falling candles: twenty candles, the last
    close far below every low between the two peaks. *)
Definition window20 : list candle :=
  bars 0 (map (fun h => (h, h / 2, h / 2)%float)
              (series14 ++ [0.5; 0.25; 0.125; 0.0625; 0.03125; 0.015625]%float)).

(** Two tops at 110, ten candles apart, the lowest low between them 100,
    and a last close of 99. *)
Definition window_top : list candle :=
  bars 0 [(106, 104, 105); (107, 105, 106); (108, 106, 107);
          (110, 108, 109);
          (108, 106, 107); (107, 105, 106); (106, 104, 105);
          (105, 103, 104); (104, 100, 102); (105, 103, 104);
          (106, 104, 105); (107, 105, 106); (108, 106, 107);
          (110, 108, 109);
          (108, 106, 107); (107, 105, 106); (106, 104, 105);
          (105, 103, 104); (104, 102, 103); (103, 98, 99)]%float.

(** Two tops at 210 followed by two bottoms at 90 and a last close of 150,
    below the first neckline and above the second. *)
Definition window_both : list candle :=
  bars 0 [(206, 204, 205); (207, 205, 206); (208, 206, 207);
          (210, 208, 209);
          (208, 206, 207); (207, 205, 206); (206, 204, 205);
          (205, 203, 204); (204, 202, 203); (205, 203, 204);
          (206, 204, 205); (207, 205, 206); (208, 206, 207);
          (210, 208, 209);
          (208, 206, 207); (207, 205, 206); (206, 204, 205);
          (152, 150, 151); (122, 120, 121); (102, 100, 101);
          (92, 90, 91);
          (94, 92, 93); (96, 94, 95); (98, 96, 97); (100, 98, 99);
          (102, 100, 101);
          (100, 98, 99); (98, 96, 97); (96, 94, 95); (94, 92, 93);
          (92, 90, 91);
          (102, 100, 101); (122, 120, 121); (152, 148, 150)]%float.

(** A feed that sends no strings and whose times are all in range. *)
Definition no_string : string -> option float := fun _ => None.
Definition any_time : Z -> result unit := fun _ => Ok tt.


(** ** The effects of the methods *)

Lemma execute_trade_candles (ty : trade_type) (s : signal) (st : bot) :
  candles (fst (execute_trade ty s st)) = candles st.
Proof.
  unfold execute_trade, bind, gets. simpl.
  destruct (position st); reflexivity.
Qed.

Lemma execute_trade_ok (ty : trade_type) (s : signal) (st : bot) :
  snd (execute_trade ty s st) = Ok tt.
Proof.
  unfold execute_trade, bind, gets. simpl.
  destruct (position st); reflexivity.
Qed.

Lemma execute_trade_free (ty : trade_type) (s : signal) (st : bot) :
  position st = None ->
  execute_trade ty s st =
  (mk_bot (candles st)
          (Some (mk_position ty (entry s) (stop_loss s) (take_profit s)))
          (log st ++ [Executing ty; TradeLogged]),
   Ok tt).
Proof.
  intros Hp. unfold execute_trade, bind, gets, print, set_position. simpl.
  rewrite Hp. simpl. rewrite <- app_assoc. reflexivity.
Qed.

Lemma execute_trade_taken (ty : trade_type) (s : signal) (st : bot)
    (p : position_t) :
  position st = Some p ->
  execute_trade ty s st =
  (mk_bot (candles st) (Some p) (log st ++ [AlreadyInPosition]), Ok tt).
Proof.
  intros Hp. unfold execute_trade, bind, gets, print. simpl.
  rewrite Hp. simpl. rewrite Hp. reflexivity.
Qed.

Lemma analyze_patterns_candles (st : bot) :
  candles (fst (analyze_patterns st)) = candles st.
Proof.
  unfold analyze_patterns, bind, gets, lift, print, ret. simpl.
  destruct (py_last (candles st)) as [c|e]; [|reflexivity].
  destruct (fromtimestamp (time c)) as [[]|e]; [|reflexivity].
  simpl.
  destruct (detect_double_top (candles st)) as [[s1|]|e]; simpl;
    [| |reflexivity].
  - match goal with
    | |- context [execute_trade PUT s1 ?st1] =>
        pose proof (execute_trade_candles PUT s1 st1) as Hc;
        pose proof (execute_trade_ok PUT s1 st1) as Hr;
        destruct (execute_trade PUT s1 st1) as [st2 r2]
    end.
    simpl in Hc, Hr. subst r2. rewrite Hc.
    destruct (detect_double_bottom (candles st)) as [[s2|]|e]; simpl;
      try exact Hc.
    rewrite execute_trade_candles. simpl. exact Hc.
  - destruct (detect_double_bottom (candles st)) as [[s2|]|e]; simpl;
      try reflexivity.
    rewrite execute_trade_candles. reflexivity.
Qed.

Lemma update_candle_candles (o : ohlc) (c : candle) (st : bot) :
  make_candle o = Ok c ->
  candles (fst (update_candle o st)) = window_after (candles st) c.
Proof.
  intros Hc. unfold update_candle, window_after, bind, lift, gets. simpl.
  rewrite Hc.
  destruct (last_time_is (candles st) (time c)); [reflexivity|].
  simpl.
  destruct (lookback_period <? length (candles st ++ [c])); simpl;
    match goal with
    | |- context [analyze_patterns ?st1] =>
        pose proof (analyze_patterns_candles st1) as Ha;
        destruct (analyze_patterns st1) as [st2 [u|e]]
    end; simpl in *; exact Ha.
Qed.

Lemma py_float_raise (v : json) (e : exn) :
  py_float v = Raise e -> e = ValueError \/ e = TypeError.
Proof.
  destruct v as [| b | f | str | |]; simpl; try discriminate;
    try (intros [= <-]; auto).
  destruct (float_of_string str); [discriminate|intros [= <-]; auto].
Qed.

Lemma numeric_getitem (key : string) (v : option json) :
  numeric v = true ->
  exists j f, py_getitem key v = Ok j /\ py_float j = Ok f.
Proof.
  unfold numeric. destruct v as [j|]; [|discriminate].
  destruct (py_float j) as [f|e] eqn:E; [|discriminate].
  intros _. exists j, f. split; [reflexivity|exact E].
Qed.

Lemma not_numeric_getitem {B : Type} (key : string) (v : option json)
    (k : float -> result B) :
  numeric v = false ->
  exists e, (let? j := py_getitem key v in
             let? f := py_float j in k f)%result = Raise e /\
            (e = ValueError \/ e = TypeError \/ exists k, e = KeyError k).
Proof.
  unfold numeric. destruct v as [j|]; simpl.
  - destruct (py_float j) as [f|e] eqn:E; [discriminate|].
    intros _. exists e. split; [reflexivity|].
    destruct (py_float_raise j e E); auto.
  - intros _. exists (KeyError key). split; [reflexivity|]. eauto.
Qed.

Lemma malformed_raises (o : ohlc) :
  malformed o = true ->
  exists e, make_candle o = Raise e /\
            (e = ValueError \/ e = TypeError \/ exists k, e = KeyError k).
Proof.
  unfold malformed, make_candle. intros H.
  destruct (raw_epoch o) as [t|]; simpl.
  2:{ exists (KeyError "epoch"). split; [reflexivity|]. eauto. }
  destruct (numeric (raw_open o)) eqn:Eo.
  2:{ eapply not_numeric_getitem in Eo. exact Eo. }
  destruct (numeric_getitem "open" _ Eo) as (jo & fo & -> & Hfo).
  simpl. rewrite Hfo. simpl.
  destruct (numeric (raw_high o)) eqn:Eh.
  2:{ eapply not_numeric_getitem in Eh. exact Eh. }
  destruct (numeric_getitem "high" _ Eh) as (jh & fh & -> & Hfh).
  simpl. rewrite Hfh. simpl.
  destruct (numeric (raw_low o)) eqn:El.
  2:{ eapply not_numeric_getitem in El. exact El. }
  destruct (numeric_getitem "low" _ El) as (jl & fl & -> & Hfl).
  simpl. rewrite Hfl. simpl.
  destruct (numeric (raw_close o)) eqn:Ec.
  2:{ eapply not_numeric_getitem in Ec. exact Ec. }
  discriminate.
Qed.

(** ** Lists: the last element *)

Lemma py_last_snoc (cs : list candle) (l : candle) :
  py_last cs = Ok l -> cs = removelast cs ++ [l].
Proof.
  destruct cs as [|c0 cs']; [discriminate|].
  unfold py_last. intros [= <-].
  change (c0 :: cs' = removelast (c0 :: cs') ++ [last (c0 :: cs') c0]).
  apply app_removelast_last. discriminate.
Qed.

Lemma last_time_is_true (cs : list candle) (l : candle) (t : Z) :
  py_last cs = Ok l -> time l = t -> last_time_is cs t = true.
Proof.
  destruct cs as [|c0 cs']; [discriminate|].
  unfold py_last, last_time_is. intros [= <-] <-. apply Z.eqb_refl.
Qed.

Lemma last_time_is_inv (cs : list candle) (t : Z) :
  last_time_is cs t = true -> exists l, py_last cs = Ok l /\ time l = t.
Proof.
  destruct cs as [|c0 cs']; [discriminate|].
  unfold py_last, last_time_is. intros H. apply Z.eqb_eq in H.
  eexists. split; [reflexivity|exact H].
Qed.

(** ** Malformed updates *)

(** C3: an update whose open, high, low or close is missing or is not a
    number raises an exception (a [KeyError], [ValueError] or [TypeError]
    handed to the caller as the result of the call) and leaves the bot, so
    the window, exactly as it was; the next update then behaves as if the
    rejected one had never been sent. *)
Theorem malformed_update_rejected (st : bot) (o : ohlc) :
  malformed o = true ->
  exists e,
    update_candle o st = (st, Raise e) /\
    (e = ValueError \/ e = TypeError \/ exists k, e = KeyError k) /\
    forall o', update_candle o' (fst (update_candle o st)) = update_candle o' st.
Proof.
  intros H. destruct (malformed_raises o H) as (e & He & Hk).
  assert (Hu : update_candle o st = (st, Raise e)).
  { unfold update_candle, bind, lift. rewrite He. reflexivity. }
  exists e. split; [exact Hu|]. split; [exact Hk|].
  intros o'. rewrite Hu. reflexivity.
Qed.

(** ** Correcting the current candle *)

(** C5: in a non-empty window whose last candle has the time of the new
    candle, the update replaces that last entry only: the length and every
    other candle are unchanged, nothing is evicted, and no analysis runs
    (the position and the printed log are unchanged, the call returns). *)
Theorem same_time_replaces_last (st : bot) (o : ohlc) (c l : candle) :
  make_candle o = Ok c ->
  py_last (candles st) = Ok l ->
  time l = time c ->
  let w := removelast (candles st) ++ [c] in
  update_candle o st = (mk_bot w (position st) (log st), Ok tt) /\
  length w = length (candles st) /\
  (forall i, i < length (candles st) - 1 ->
             nth_error w i = nth_error (candles st) i) /\
  nth_error w (length (candles st) - 1) = Some c.
Proof.
  intros Hc Hl Ht w. subst w.
  assert (Hu : update_candle o st =
               (mk_bot (removelast (candles st) ++ [c]) (position st) (log st),
                Ok tt)).
  { unfold update_candle, bind, lift, gets. simpl. rewrite Hc.
    rewrite (last_time_is_true _ _ _ Hl Ht). reflexivity. }
  pose proof (py_last_snoc _ _ Hl) as Hs.
  set (r := removelast (candles st)) in *. clearbody r.
  split; [exact Hu|]. rewrite Hs. rewrite !length_app. simpl.
  split; [reflexivity|]. split.
  - intros i Hi. rewrite !nth_error_app1 by lia. reflexivity.
  - rewrite nth_error_app2 by lia.
    replace (length r + 1 - 1 - length r) with 0 by lia. reflexivity.
Qed.

(** ** The single position slot *)

(** C6: with no position open, a first [execute_trade] executes (it prints
    the two messages of an executed trade) and records the position built
    from the signal; a second one, whatever its signal, prints the message
    of a skipped trade, leaves the recorded position as it is and raises
    nothing. *)
Theorem execute_twice (st : bot) (ty1 ty2 : trade_type) (s1 s2 : signal) :
  position st = None ->
  let p := mk_position ty1 (entry s1) (stop_loss s1) (take_profit s1) in
  let st1 := mk_bot (candles st) (Some p) (log st ++ [Executing ty1; TradeLogged]) in
  execute_trade ty1 s1 st = (st1, Ok tt) /\
  execute_trade ty2 s2 st1 =
  (mk_bot (candles st) (Some p) (log st1 ++ [AlreadyInPosition]), Ok tt).
Proof.
  intros Hp p st1. split.
  - apply execute_trade_free. exact Hp.
  - apply (execute_trade_taken ty2 s2 st1 p). reflexivity.
Qed.

(** ** Loading history *)

Lemma append_candles_ok (cs : list candle) :
  forall (raw : list ohlc) (st : bot),
    map make_candle raw = map Ok cs ->
    append_candles raw st =
    (mk_bot (candles st ++ cs) (position st) (log st), Ok tt).
Proof.
  induction cs as [|c cs IH]; intros raw st Hraw.
  - destruct raw; [|discriminate]. destruct st. simpl.
    rewrite app_nil_r. reflexivity.
  - destruct raw as [|o raw]; [discriminate|].
    simpl in Hraw. injection Hraw as Ho Hraw.
    cbn [append_candles]. unfold bind, lift, gets, set_candles.
    rewrite Ho. cbn [candles position log].
    rewrite (IH raw _ Hraw). cbn [candles position log].
    rewrite <- app_assoc. reflexivity.
Qed.

(** Whatever the analysis then does, the window that [process_candles]
    leaves is the sequence that was loaded. *)
Lemma process_candles_window (raw : list ohlc) (cs : list candle) (st : bot) :
  map make_candle raw = map Ok cs ->
  candles (fst (process_candles raw st)) = cs.
Proof.
  intros Hraw. unfold process_candles, bind, gets, print, set_candles.
  cbn [candles position log].
  rewrite (append_candles_ok cs raw _ Hraw). cbn [candles position log app].
  match goal with
  | |- context [analyze_patterns ?st1] =>
      pose proof (analyze_patterns_candles st1) as Ha;
      destruct (analyze_patterns st1) as [st2 [u|e]]
  end; exact Ha.
Qed.

(** C7: [process_candles] on the empty list empties the window, prints
    that 0 candles were loaded and then raises [IndexError], in
    [analyze_patterns], which reads the last candle of an empty list. *)
Theorem process_candles_empty (st : bot) :
  process_candles [] st =
  (mk_bot [] (position st) (log st ++ [Loaded 0]), Raise IndexError).
Proof. reflexivity. Qed.

(** ** One analysis pass *)

(** C10: when no position is open and both detectors confirm on the
    window, one pass of [analyze_patterns] handles the double top first:
    its PUT trade is recorded as the position, and the CALL trade of the
    double bottom is then skipped, so the pass leaves exactly that one
    position. *)
Theorem double_top_takes_the_slot (st : bot) (s1 s2 : signal) (l : candle) :
  position st = None ->
  py_last (candles st) = Ok l ->
  fromtimestamp (time l) = Ok tt ->
  detect_double_top (candles st) = Ok (Some s1) ->
  detect_double_bottom (candles st) = Ok (Some s2) ->
  analyze_patterns st =
  (mk_bot (candles st)
          (Some (mk_position PUT (entry s1) (stop_loss s1) (take_profit s1)))
          (log st ++ [Analyzing (time l); DoubleTopDetected s1;
                      Executing PUT; TradeLogged;
                      DoubleBottomDetected s2; AlreadyInPosition]),
   Ok tt).
Proof.
  intros Hp Hl Ht H1 H2.
  unfold analyze_patterns, bind, gets, lift. simpl.
  rewrite Hl, Ht. simpl. rewrite H1. simpl.
  rewrite execute_trade_free by exact Hp. simpl.
  rewrite H2. simpl.
  erewrite execute_trade_taken by reflexivity. simpl.
  rewrite <- !app_assoc. reflexivity.
Qed.

(** ** Increasing times *)

Lemma lookback_pos : 0 < lookback_period.
Proof. unfold lookback_period. lia. Qed.

Lemma increasing_cons_iff (a : Z) (l : list Z) :
  increasing (a :: l) = true <->
  (forall x, In x l -> (a < x)%Z) /\ increasing l = true.
Proof.
  revert a. induction l as [|b l IH]; intros a.
  - simpl. split; [intros _; split; [intros x []|reflexivity]|reflexivity].
  - change (increasing (a :: b :: l)) with ((a <? b)%Z && increasing (b :: l)).
    rewrite andb_true_iff, Z.ltb_lt. split.
    + intros [Hab Hl]. split; [|exact Hl].
      intros x [<-|Hx]; [exact Hab|].
      apply IH in Hl. destruct Hl as [Hb _]. specialize (Hb x Hx). lia.
    + intros [Ha Hl]. split; [apply Ha; left; reflexivity|exact Hl].
Qed.

Lemma increasing_app_iff (l1 l2 : list Z) :
  increasing (l1 ++ l2) = true <->
  increasing l1 = true /\ increasing l2 = true /\
  (forall x y, In x l1 -> In y l2 -> (x < y)%Z).
Proof.
  induction l1 as [|a l1 IH].
  - simpl. split; [intros H; repeat split; [exact H|intros x y []]|tauto].
  - rewrite <- app_comm_cons, !increasing_cons_iff, IH. split.
    + intros (Ha & H1 & H2 & H12). repeat split; try assumption.
      * intros x Hx. apply Ha, in_or_app. left. exact Hx.
      * intros x y [<-|Hx] Hy; [apply Ha, in_or_app; right; exact Hy|].
        apply H12; assumption.
    + intros ((Ha & H1) & H2 & H12). repeat split; try assumption.
      * intros x Hx. apply in_app_or in Hx. destruct Hx as [Hx|Hx].
        -- apply Ha, Hx.
        -- apply H12; [left; reflexivity|exact Hx].
      * intros x y Hx Hy. apply H12; [right; exact Hx|exact Hy].
Qed.

Lemma increasing_NoDup (l : list Z) : increasing l = true -> NoDup l.
Proof.
  induction l as [|a l IH]; intros H; [constructor|].
  apply increasing_cons_iff in H. destruct H as [Ha Hl].
  constructor; [|apply IH, Hl].
  intros Hin. specialize (Ha a Hin). lia.
Qed.

Lemma increasing_tl (l : list candle) :
  increasing (map time l) = true -> increasing (map time (tl l)) = true.
Proof.
  destruct l as [|c l]; [trivial|]. simpl map.
  intros H. apply increasing_cons_iff in H. apply H.
Qed.

Lemma nondecreasing_cons (a b : Z) (l : list Z) :
  nondecreasing (a :: b :: l) = true ->
  (a <= b)%Z /\ nondecreasing (b :: l) = true.
Proof.
  change (nondecreasing (a :: b :: l))
    with ((a <=? b)%Z && nondecreasing (b :: l)).
  rewrite andb_true_iff, Z.leb_le. trivial.
Qed.

Lemma last_time_is_snoc (w : list candle) (l : candle) (t : Z) :
  last_time_is (w ++ [l]) t = Z.eqb (time l) t.
Proof.
  unfold last_time_is. destruct (w ++ [l]) as [|c0 r] eqn:E.
  - destruct w; discriminate.
  - rewrite <- E, last_last. reflexivity.
Qed.

(** In a window followed by later candles, the last candle of the window
    does not have the time of the next one. *)
Lemma increasing_last_time (w r : list candle) (c : candle) :
  increasing (map time (w ++ c :: r)) = true ->
  last_time_is w (time c) = false.
Proof.
  destruct w as [|c0 w0] using rev_ind; [reflexivity|].
  intros H. rewrite last_time_is_snoc. apply Z.eqb_neq.
  rewrite map_app in H. apply increasing_app_iff in H.
  destruct H as (_ & _ & H).
  specialize (H (time c0) (time c)).
  assert (time c0 < time c)%Z; [|lia].
  apply H.
  - rewrite map_app. apply in_or_app. right. left. reflexivity.
  - left. reflexivity.
Qed.

Lemma skipn_S_tl {A : Type} (k : nat) (l : list A) :
  skipn (S k) l = tl (skipn k l).
Proof.
  revert l. induction k as [|k IH]; intros [|a l]; try reflexivity.
  change (skipn (S (S k)) (a :: l)) with (skipn (S k) l).
  rewrite IH. reflexivity.
Qed.

Lemma map_ok_inv (os : list ohlc) (c : candle) (cs : list candle) :
  map make_candle os = map Ok (c :: cs) ->
  exists o os', os = o :: os' /\ make_candle o = Ok c /\
                map make_candle os' = map Ok cs.
Proof.
  destruct os as [|o os']; [discriminate|].
  simpl. intros [= Ho Hos]. eauto.
Qed.

(** ** The window after a run of updates *)

Lemma window_after_new (w : list candle) (c : candle) :
  last_time_is w (time c) = false ->
  length w <= lookback_period ->
  window_after w c = skipn (length (w ++ [c]) - lookback_period) (w ++ [c]) /\
  length (window_after w c) <= lookback_period.
Proof.
  intros Hl Hw. unfold window_after. rewrite Hl.
  cbv zeta. rewrite length_app. simpl length.
  destruct (Nat.ltb_spec lookback_period (length w + 1)) as [H|H].
  - assert (Hn : length w = lookback_period) by lia.
    replace (length w + 1 - lookback_period) with 1 by lia.
    split; [reflexivity|].
    destruct w as [|x t]; [pose proof lookback_pos; simpl in Hn; lia|].
    simpl. rewrite length_app. simpl in *. lia.
  - replace (length w + 1 - lookback_period) with 0 by lia.
    split; [reflexivity|]. rewrite length_app. simpl. lia.
Qed.

Lemma feed_window (cs : list candle) :
  forall (os : list ohlc) (st : bot),
    map make_candle os = map Ok cs ->
    length (candles st) <= lookback_period ->
    increasing (map time (candles st ++ cs)) = true ->
    candles (feed os st) =
    skipn (length (candles st ++ cs) - lookback_period) (candles st ++ cs).
Proof.
  induction cs as [|c cs IH]; intros os st Hos Hw Hinc.
  - destruct os; [|discriminate]. simpl. rewrite app_nil_r.
    replace (length (candles st) - lookback_period) with 0 by lia.
    reflexivity.
  - destruct (map_ok_inv _ _ _ Hos) as (o & os' & -> & Ho & Hos').
    pose proof (increasing_last_time _ _ _ Hinc) as Hl.
    destruct (window_after_new _ c Hl Hw) as [Hwa Hlen].
    pose proof (update_candle_candles o c st Ho) as Hu.
    change (feed (o :: os') st) with (feed os' (fst (update_candle o st))).
    set (st1 := fst (update_candle o st)) in *.
    assert (Hcat : candles st1 ++ cs =
                   skipn (length (candles st ++ [c]) - lookback_period)
                         (candles st ++ c :: cs)).
    { rewrite Hu, Hwa.
      replace (candles st ++ c :: cs) with ((candles st ++ [c]) ++ cs)
        by (rewrite <- app_assoc; reflexivity).
      rewrite (skipn_app _ (candles st ++ [c]) cs).
      replace (length (candles st ++ [c]) - lookback_period
               - length (candles st ++ [c])) with 0 by lia.
      reflexivity. }
    rewrite IH; [| exact Hos' | rewrite Hu; exact Hlen |].
    + rewrite Hcat, skipn_skipn, length_skipn. f_equal.
      rewrite !length_app. simpl. lia.
    + rewrite Hcat.
      rewrite <- (firstn_skipn (length (candles st ++ [c]) - lookback_period)
                               (candles st ++ c :: cs)) in Hinc.
      rewrite map_app in Hinc. apply increasing_app_iff in Hinc. apply Hinc.
Qed.

Lemma feed_app (os1 os2 : list ohlc) (st : bot) :
  feed (os1 ++ os2) st = feed os2 (feed os1 st).
Proof. unfold feed. apply fold_left_app. Qed.

(** C2: from an empty window, after updates with strictly increasing times
    the window holds at most [lookback_period] = 50 candles, namely the
    most recent ones in the order they came; one more update of a later
    time is appended while there is room, and otherwise evicts the first
    candle of the window, whose time is the oldest, and keeps the others in
    their order. *)
Theorem window_is_fifo (st : bot) (os : list ohlc) (cs : list candle) :
  candles st = [] ->
  map make_candle os = map Ok cs ->
  increasing (map time cs) = true ->
  let w := candles (feed os st) in
  lookback_period = 50 /\
  length w <= lookback_period /\
  w = skipn (length cs - lookback_period) cs /\
  forall (o : ohlc) (c : candle),
    make_candle o = Ok c ->
    increasing (map time (cs ++ [c])) = true ->
    let w' := candles (fst (update_candle o (feed os st))) in
    (length w < lookback_period -> w' = w ++ [c]) /\
    (length w = lookback_period ->
     exists oldest rest,
       w = oldest :: rest /\ w' = rest ++ [c] /\
       Forall (fun x => (time oldest < time x)%Z) w').
Proof.
  intros Hst Hos Hinc w.
  pose proof lookback_pos as Hpos.
  assert (Hw : w = skipn (length cs - lookback_period) cs).
  { unfold w. rewrite (feed_window cs os st Hos); rewrite Hst; simpl;
      [reflexivity|lia|exact Hinc]. }
  assert (Hlen : length w = Nat.min (length cs) lookback_period).
  { rewrite Hw, length_skipn. lia. }
  split; [reflexivity|]. split; [lia|]. split; [exact Hw|].
  intros o c Ho Hinc' w'.
  assert (Hw' : w' = skipn (length (cs ++ [c]) - lookback_period) (cs ++ [c])).
  { unfold w'.
    change (fst (update_candle o (feed os st))) with (feed [o] (feed os st)).
    rewrite <- feed_app.
    rewrite (feed_window (cs ++ [c]) (os ++ [o]) st); rewrite ?Hst; simpl.
    - reflexivity.
    - rewrite !map_app. simpl. rewrite Ho, Hos. reflexivity.
    - lia.
    - exact Hinc'. }
  rewrite length_app in Hw'. simpl length in Hw'.
  split.
  - intros Hlt.
    replace (length cs - lookback_period) with 0 in Hw by lia.
    replace (length cs + 1 - lookback_period) with 0 in Hw' by lia.
    rewrite Hw, Hw'. reflexivity.
  - intros Heq.
    replace (length cs + 1 - lookback_period)
      with (S (length cs - lookback_period)) in Hw' by lia.
    rewrite skipn_S_tl, skipn_app in Hw'.
    replace (length cs - lookback_period - length cs) with 0 in Hw' by lia.
    simpl skipn in Hw'. rewrite <- Hw in Hw'.
    destruct w as [|oldest rest] eqn:E; [simpl in Heq; lia|].
    exists oldest, rest. simpl in Hw'.
    split; [reflexivity|]. split; [exact Hw'|].
    rewrite Hw'.
    rewrite <- (firstn_skipn (length cs - lookback_period) (cs ++ [c])) in Hinc'.
    rewrite map_app in Hinc'. apply increasing_app_iff in Hinc'.
    destruct Hinc' as (_ & Hs & _).
    rewrite skipn_app in Hs.
    replace (length cs - lookback_period - length cs) with 0 in Hs by lia.
    simpl skipn in Hs. rewrite <- Hw in Hs. simpl in Hs.
    apply increasing_cons_iff in Hs. destruct Hs as [Hs _].
    apply Forall_forall. intros x Hx. apply Hs, in_map, Hx.
Qed.

(** ** At most one candle per time *)

Lemma window_after_In (w : list candle) (c x : candle) :
  In x (window_after w c) -> In x w \/ x = c.
Proof.
  unfold window_after.
  destruct (last_time_is w (time c)) eqn:El.
  - destruct (last_time_is_inv _ _ El) as (l & Hl & _).
    apply py_last_snoc in Hl. intros Hx.
    apply in_app_or in Hx. destruct Hx as [Hx|[<-|[]]]; [left|right; reflexivity].
    rewrite Hl. apply in_or_app. left. exact Hx.
  - cbv zeta.
    assert (Hin : In x (w ++ [c]) -> In x w \/ x = c).
    { intros Hx. apply in_app_or in Hx.
      destruct Hx as [Hx|[<-|[]]]; [left; exact Hx|right; reflexivity]. }
    destruct (lookback_period <? length (w ++ [c])); [|exact Hin].
    intros Hx. apply Hin.
    destruct (w ++ [c]); [destruct Hx|right; exact Hx].
Qed.

Lemma window_after_increasing (w : list candle) (c : candle) :
  increasing (map time w) = true ->
  (forall x, In x w -> (time x <= time c)%Z) ->
  increasing (map time (window_after w c)) = true.
Proof.
  intros Hinc Hle. unfold window_after.
  destruct (last_time_is w (time c)) eqn:El.
  - destruct (last_time_is_inv _ _ El) as (l & Hl & Ht).
    apply py_last_snoc in Hl.
    rewrite Hl, map_app in Hinc. simpl in Hinc. rewrite Ht in Hinc.
    rewrite map_app. exact Hinc.
  - cbv zeta.
    assert (Hall : increasing (map time (w ++ [c])) = true).
    { rewrite map_app. apply increasing_app_iff.
      split; [exact Hinc|]. split; [reflexivity|].
      intros x y Hx [<-|[]].
      destruct w as [|c0 w0] using rev_ind; [destruct Hx|].
      rewrite last_time_is_snoc in El. apply Z.eqb_neq in El.
      assert (Hc0 : (time c0 < time c)%Z).
      { assert (time c0 <= time c)%Z; [|lia].
        apply Hle, in_or_app. right. left. reflexivity. }
      rewrite map_app in Hx, Hinc. apply in_app_or in Hx.
      destruct Hx as [Hx|[<-|[]]]; [|exact Hc0].
      apply increasing_app_iff in Hinc. destruct Hinc as (_ & _ & H).
      specialize (H x (time c0) Hx (or_introl eq_refl)). lia. }
    destruct (lookback_period <? length (w ++ [c])); [|exact Hall].
    apply increasing_tl, Hall.
Qed.

Lemma feed_increasing (cs : list candle) :
  forall (os : list ohlc) (st : bot),
    map make_candle os = map Ok cs ->
    increasing (map time (candles st)) = true ->
    nondecreasing (map time cs) = true ->
    (forall x c, In x (candles st) -> hd_error cs = Some c ->
                 (time x <= time c)%Z) ->
    increasing (map time (candles (feed os st))) = true.
Proof.
  induction cs as [|c cs IH]; intros os st Hos Hinc Hnd Hhd.
  - destruct os; [exact Hinc|discriminate].
  - destruct (map_ok_inv _ _ _ Hos) as (o & os' & -> & Ho & Hos').
    change (feed (o :: os') st) with (feed os' (fst (update_candle o st))).
    pose proof (update_candle_candles o c st Ho) as Hu.
    assert (Hle : forall x, In x (candles st) -> (time x <= time c)%Z).
    { intros x Hx. apply (Hhd x c Hx). reflexivity. }
    apply IH; [exact Hos'| | |].
    + rewrite Hu. apply window_after_increasing; assumption.
    + destruct cs as [|c2 cs2]; [reflexivity|].
      simpl map in Hnd. apply nondecreasing_cons in Hnd. apply Hnd.
    + intros x c2 Hx Hc2. rewrite Hu in Hx.
      destruct cs as [|c2' cs2]; [discriminate|].
      injection Hc2 as ->.
      simpl map in Hnd. apply nondecreasing_cons in Hnd. destruct Hnd as [H12 _].
      apply window_after_In in Hx. destruct Hx as [Hx| ->]; [|exact H12].
      specialize (Hle x Hx). lia.
Qed.

(** C4, as the code has it: an update whose time is the time of the last
    candle of the window replaces that entry in place and appends nothing;
    consequently every window reached from the empty one by updates whose
    times never decrease holds at most one candle per time. *)
Theorem upsert_on_last_time :
  (forall (st : bot) (o : ohlc) (c : candle),
      make_candle o = Ok c ->
      last_time_is (candles st) (time c) = true ->
      candles (fst (update_candle o st)) = removelast (candles st) ++ [c] /\
      length (candles (fst (update_candle o st))) = length (candles st)) /\
  (forall (st : bot) (os : list ohlc) (cs : list candle),
      candles st = [] ->
      map make_candle os = map Ok cs ->
      nondecreasing (map time cs) = true ->
      NoDup (map time (candles (feed os st)))).
Proof.
  split.
  - intros st o c Ho Hl.
    rewrite (update_candle_candles o c st Ho). unfold window_after. rewrite Hl.
    split; [reflexivity|].
    destruct (last_time_is_inv _ _ Hl) as (l & Hlast & _).
    apply py_last_snoc in Hlast. rewrite Hlast at 2.
    rewrite !length_app. reflexivity.
  - intros st os cs Hst Hos Hnd.
    apply increasing_NoDup, (feed_increasing cs); try assumption.
    + rewrite Hst. reflexivity.
    + rewrite Hst. intros x c [].
Qed.

(** ** Extrema *)

Lemma SFcompare_antisym (x y : spec_float) :
  SFcompare y x = option_map CompOpp (SFcompare x y).
Proof.
  destruct x as [s|s| |s m e], y as [s'|s'| |s' m' e']; simpl;
    try reflexivity;
    try (destruct s; reflexivity); try (destruct s'; reflexivity);
    try (destruct s, s'; reflexivity).
  change (PosDef.Pos.compare_cont Eq m' m) with (Pos.compare m' m).
  change (PosDef.Pos.compare_cont Eq m m') with (Pos.compare m m').
  rewrite (Z.compare_antisym e e'), (Pos.compare_antisym m m').
  destruct s, s'; simpl; try reflexivity;
    destruct (e ?= e')%Z; simpl; try reflexivity;
    destruct (m ?= m')%positive; reflexivity.
Qed.

(** Python's [a < b] excludes [a >= b], also for infinities and NaN. *)
Lemma lt_not_ge (a b : float) :
  PrimFloat.ltb a b = true -> py_ge a b = false.
Proof.
  unfold py_ge. rewrite ltb_spec, leb_spec. unfold SFltb, SFleb.
  rewrite (SFcompare_antisym (Prim2SF a) (Prim2SF b)).
  destruct (SFcompare (Prim2SF a) (Prim2SF b)) as [[]|]; simpl; congruence.
Qed.

Lemma strictly_increasing_adjacent (data : list float) :
  forall i, strictly_increasing data = true -> S i < length data ->
            PrimFloat.ltb (item data i) (item data (S i)) = true.
Proof.
  induction data as [|a t IH]; intros i Hinc Hi; [simpl in Hi; lia|].
  destruct t as [|b t']; [simpl in Hi; lia|].
  change (strictly_increasing (a :: b :: t'))
    with (PrimFloat.ltb a b && strictly_increasing (b :: t')) in Hinc.
  apply andb_true_iff in Hinc. destruct Hinc as [Hab Ht].
  destruct i as [|i]; [exact Hab|].
  apply (IH i Ht). simpl in Hi |- *. lia.
Qed.

Lemma filter_none {A : Type} (f : A -> bool) (l : list A) :
  (forall x, In x l -> f x = false) -> filter f l = [].
Proof.
  induction l as [|a l IH]; intros H; [reflexivity|].
  simpl. rewrite (H a (or_introl eq_refl)).
  apply IH. intros x Hx. apply H. right. exact Hx.
Qed.

(** Every index that [find_peaks] reads is inside the list: for [i] in
    [range(order, len(data) - order)] and [j] in [range(1, order + 1)],
    neither [i - j] nor [i + j] leaves it. *)
Lemma find_peaks_bounds (data : list float) (order i j : nat) :
  In i (range order (length data - order)) ->
  In j (range 1 (order + 1)) ->
  j <= i /\ i + j < length data.
Proof.
  unfold range. intros Hi Hj. apply in_seq in Hi. apply in_seq in Hj. lia.
Qed.

(** C9, as the code has it: for an order of at least 1, [find_peaks]
    returns no index on a strictly increasing sequence longer than twice
    the order. *)
Theorem increasing_has_no_peak (data : list float) (order : nat) :
  1 <= order ->
  strictly_increasing data = true ->
  2 * order < length data ->
  find_peaks data order = [].
Proof.
  intros Ho Hinc _. unfold find_peaks. apply filter_none.
  intros i Hi. unfold range in Hi. apply in_seq in Hi.
  destruct order as [|k]; [lia|].
  unfold range at 2. replace (S k + 1 - 1) with (S k) by lia.
  cbn [seq forallb]. replace (i + 1) with (S i) by lia.
  rewrite (lt_not_ge _ _ (strictly_increasing_adjacent data i Hinc ltac:(lia))).
  apply andb_false_r.
Qed.

(** ** Double tops *)

Lemma scan_tops_inv (cs : list candle) (highs : list float) (peaks : list nat)
    (s : signal) :
  forall idxs,
    scan_tops cs highs peaks idxs = Ok (Some s) ->
    exists i p1 p2 nk l,
      In i idxs /\
      py_index peaks i = Ok p1 /\ py_index peaks (i + 1) = Ok p2 /\
      min_candles_between <= p2 - p1 /\
      py_index highs p1 = Ok (peak1 s) /\ py_index highs p2 = Ok (peak2 s) /\
      py_last cs = Ok l /\ PrimFloat.ltb (close l) nk = true /\
      s = mk_signal double_top (peak1 s) (peak2 s) nk (close l)
            (py_max (peak1 s) (peak2 s))
            (nk - (py_max (peak1 s) (peak2 s) - nk))%float.
Proof.
  induction idxs as [|i rest IH]; intros H; [discriminate|].
  assert (Hrest : scan_tops cs highs peaks rest = Ok (Some s) ->
                  exists i0 p1 p2 nk l,
                    In i0 (i :: rest) /\
                    py_index peaks i0 = Ok p1 /\ py_index peaks (i0 + 1) = Ok p2 /\
                    min_candles_between <= p2 - p1 /\
                    py_index highs p1 = Ok (peak1 s) /\
                    py_index highs p2 = Ok (peak2 s) /\
                    py_last cs = Ok l /\ PrimFloat.ltb (close l) nk = true /\
                    s = mk_signal double_top (peak1 s) (peak2 s) nk (close l)
                          (py_max (peak1 s) (peak2 s))
                          (nk - (py_max (peak1 s) (peak2 s) - nk))%float).
  { intros Hr. destruct (IH Hr) as (i' & p1 & p2 & nk & l & Hin & Hx).
    exists i', p1, p2, nk, l. split; [right; exact Hin|exact Hx]. }
  cbn [scan_tops] in H.
  destruct (py_index peaks i) as [p1|] eqn:E1; cbn [rbind] in H; [|discriminate].
  destruct (py_index peaks (i + 1)) as [p2|] eqn:E2; cbn [rbind] in H;
    [|discriminate].
  destruct (p2 - p1 <? min_candles_between) eqn:Eg; [exact (Hrest H)|].
  destruct (py_index highs p1) as [h1|] eqn:E3; cbn [rbind] in H; [|discriminate].
  destruct (py_index highs p2) as [h2|] eqn:E4; cbn [rbind] in H; [|discriminate].
  destruct (py_div (PrimFloat.abs (h1 - h2)) h1) as [d|]; cbn [rbind] in H;
    [|discriminate].
  destruct (PrimFloat.leb d tolerance); [|exact (Hrest H)].
  match type of H with
  | rbind ?r _ = _ => destruct r as [bl|]; cbn [rbind] in H; [|discriminate]
  end.
  destruct (py_min_list bl) as [nk|]; cbn [rbind] in H; [|discriminate].
  destruct (py_last cs) as [l|]; cbn [rbind] in H; [|discriminate].
  cbv zeta in H.
  destruct (PrimFloat.ltb (close l) nk) eqn:Ec; [|exact (Hrest H)].
  injection H as <-. exists i, p1, p2, nk, l. unfold peak1, peak2. simpl.
  apply Nat.ltb_ge in Eg.
  repeat split; try assumption; try reflexivity. left. reflexivity.
Qed.

Lemma detect_double_top_inv (cs : list candle) (s : signal) :
  detect_double_top cs = Ok (Some s) ->
  exists i p1 p2 nk l,
    py_index (find_peaks (map high cs) 3) i = Ok p1 /\
    py_index (find_peaks (map high cs) 3) (i + 1) = Ok p2 /\
    min_candles_between <= p2 - p1 /\
    py_index (map high cs) p1 = Ok (peak1 s) /\
    py_index (map high cs) p2 = Ok (peak2 s) /\
    py_last cs = Ok l /\ PrimFloat.ltb (close l) nk = true /\
    s = mk_signal double_top (peak1 s) (peak2 s) nk (close l)
          (py_max (peak1 s) (peak2 s))
          (nk - (py_max (peak1 s) (peak2 s) - nk))%float.
Proof.
  unfold detect_double_top.
  destruct (length cs <? 20); [discriminate|]. cbv zeta.
  destruct (length (find_peaks (map high cs) 3) <? 2); [discriminate|].
  intros H. apply scan_tops_inv in H.
  destruct H as (i & p1 & p2 & nk & l & _ & H).
  exists i, p1, p2, nk, l. exact H.
Qed.

(** C1, as the code has it: on the highs [series14], with order 3, the
    peaks are exactly the indices 3 and 10; they are 7 candles apart, less
    than [min_candles_between], so a window whose highs have exactly these
    two peaks yields no signal whatever its lows and closes are; a
    double top is only ever emitted for two consecutive peaks at least
    [min_candles_between] candles apart. *)
Theorem close_peaks_give_no_signal :
  find_peaks series14 3 = [3; 10] /\
  10 - 3 < min_candles_between /\
  (forall cs, find_peaks (map high cs) 3 = [3; 10] ->
              detect_double_top cs = Ok None) /\
  (forall cs s, detect_double_top cs = Ok (Some s) ->
     exists i p1 p2,
       py_index (find_peaks (map high cs) 3) i = Ok p1 /\
       py_index (find_peaks (map high cs) 3) (i + 1) = Ok p2 /\
       min_candles_between <= p2 - p1 /\
       py_index (map high cs) p1 = Ok (peak1 s) /\
       py_index (map high cs) p2 = Ok (peak2 s)).
Proof.
  split; [reflexivity|]. split; [unfold min_candles_between; lia|]. split.
  - intros cs H. unfold detect_double_top.
    destruct (length cs <? 20); [reflexivity|]. cbv zeta.
    rewrite H. reflexivity.
  - intros cs s H. apply detect_double_top_inv in H.
    destruct H as (i & p1 & p2 & nk & l & H1 & H2 & H3 & H4 & H5 & _).
    exists i, p1, p2. repeat split; assumption.
Qed.

(** C8: a double top that is emitted has its stop loss at the higher of
    the two peaks, its take profit as far below the neckline as the stop
    loss is above it, and its entry at the close of the last candle; with
    both peaks at 110 and the neckline at 100 the stop loss is 110 and the
    take profit 90. *)
Theorem double_top_levels (cs : list candle) (s : signal) :
  detect_double_top cs = Ok (Some s) ->
  pattern s = double_top /\
  stop_loss s = py_max (peak1 s) (peak2 s) /\
  take_profit s = (neckline s - (stop_loss s - neckline s))%float /\
  (exists l, py_last cs = Ok l /\ entry s = close l) /\
  (peak1 s = 110%float -> peak2 s = 110%float -> neckline s = 100%float ->
   stop_loss s = 110%float /\ take_profit s = 90%float).
Proof.
  intros H. apply detect_double_top_inv in H.
  destruct H as (i & p1 & p2 & nk & l & _ & _ & _ & _ & _ & Hl & _ & Hs).
  rewrite Hs.
  cbn [pattern stop_loss take_profit neckline entry peak1 peak2 ref1 ref2].
  split; [reflexivity|]. split; [reflexivity|]. split; [reflexivity|].
  split; [exists l; split; [exact Hl|reflexivity]|].
  intros H1 H2 H3. rewrite H1, H2, H3. split; reflexivity.
Qed.

(** ** More on extrema *)

Lemma StronglySorted_seq (a n : nat) : StronglySorted lt (seq a n).
Proof.
  revert a. induction n as [|n IH]; intros a; simpl; constructor.
  - apply IH.
  - apply Forall_forall. intros x Hx. apply in_seq in Hx. lia.
Qed.

Lemma StronglySorted_filter {A : Type} (R : A -> A -> Prop) (f : A -> bool)
    (l : list A) :
  StronglySorted R l -> StronglySorted R (filter f l).
Proof.
  induction 1 as [|a l Hl IH Ha]; simpl; [constructor|].
  destruct (f a); [|exact IH].
  constructor; [exact IH|].
  apply Forall_forall. intros x Hx. apply filter_In in Hx.
  rewrite Forall_forall in Ha. apply Ha, Hx.
Qed.

Lemma filter_all {A : Type} (f : A -> bool) (l : list A) :
  (forall x, In x l -> f x = true) -> filter f l = l.
Proof.
  induction l as [|a l IH]; intros H; [reflexivity|].
  simpl. rewrite (H a (or_introl eq_refl)). f_equal.
  apply IH. intros x Hx. apply H. right. exact Hx.
Qed.

(** A float that is equal to itself (any float but NaN) is [<=] itself. *)
Lemma leb_refl (x : float) :
  PrimFloat.eqb x x = true -> PrimFloat.leb x x = true.
Proof.
  rewrite FloatAxioms.eqb_spec, leb_spec. unfold SFeqb, SFleb.
  destruct (SFcompare (Prim2SF x) (Prim2SF x)) as [[]|]; congruence.
Qed.

(** X1: the indices returned by [find_peaks] and by [find_troughs] come in
    strictly ascending order and lie at least [order] positions away from
    both ends of the data; on data of at most [2 * order] values nothing is
    returned. *)
Theorem extrema_ascending_inside (data : list float) (order : nat) :
  StronglySorted lt (find_peaks data order) /\
  StronglySorted lt (find_troughs data order) /\
  (forall i, In i (find_peaks data order) \/ In i (find_troughs data order) ->
             order <= i /\ i + order < length data) /\
  (length data <= 2 * order ->
   find_peaks data order = [] /\ find_troughs data order = []).
Proof.
  unfold find_peaks, find_troughs, range at 3 6 9 12 15 18.
  split; [apply StronglySorted_filter, StronglySorted_seq|].
  split; [apply StronglySorted_filter, StronglySorted_seq|].
  split.
  - intros i [H|H]; apply filter_In in H; destruct H as [H _];
      apply in_seq in H; lia.
  - intros Hlen.
    replace (length data - order - order) with 0 by lia.
    split; reflexivity.
Qed.

(** X2: on a flat series of a value other than NaN, every index that has
    [order] neighbours on both sides is returned both as a peak and as a
    trough, since the comparisons with the neighbours are not strict. *)
Theorem flat_series_all_extrema (x : float) (n order : nat) :
  PrimFloat.eqb x x = true ->
  find_peaks (repeat x n) order = range order (n - order) /\
  find_troughs (repeat x n) order = range order (n - order).
Proof.
  intros Hx. apply leb_refl in Hx.
  assert (Hitem : forall k, k < n -> item (repeat x n) k = x).
  { intros k Hk. unfold item. apply nth_repeat_lt. exact Hk. }
  unfold find_peaks, find_troughs. rewrite repeat_length.
  split; apply filter_all; intros i Hi; unfold range in Hi;
    apply in_seq in Hi; apply andb_true_iff; split;
    apply forallb_forall; intros j Hj; unfold range in Hj;
    apply in_seq in Hj; unfold py_ge;
    rewrite !Hitem by lia; exact Hx.
Qed.

Lemma no_trough_when_increasing (data : list float) (order : nat) :
  1 <= order ->
  strictly_increasing data = true ->
  find_troughs data order = [].
Proof.
  intros Ho Hinc. unfold find_troughs. apply filter_none.
  intros i Hi. unfold range in Hi. apply in_seq in Hi.
  destruct order as [|k]; [lia|].
  unfold range at 1. replace (S k + 1 - 1) with (S k) by lia.
  cbn [seq forallb].
  destruct i as [|i']; [lia|].
  replace (S i' - 1) with i' by lia.
  pose proof (lt_not_ge _ _
                (strictly_increasing_adjacent data i' Hinc ltac:(lia))) as H.
  unfold py_ge in H. rewrite H. reflexivity.
Qed.

(** X3: on a window whose lows rise strictly from candle to candle there
    is no trough, and [detect_double_bottom] returns no signal and raises
    nothing. *)
Theorem rising_lows_no_double_bottom (cs : list candle) :
  strictly_increasing (map low cs) = true ->
  find_troughs (map low cs) 3 = [] /\ detect_double_bottom cs = Ok None.
Proof.
  intros Hinc.
  pose proof (no_trough_when_increasing (map low cs) 3 ltac:(lia) Hinc) as Ht.
  split; [exact Ht|].
  unfold detect_double_bottom. destruct (length cs <? 20); [reflexivity|].
  cbv zeta. rewrite Ht. reflexivity.
Qed.

(** ** The position is never replaced *)

Lemma keeps_bind {A B : Type} (m : M A) (k : A -> M B) :
  keeps_position m -> (forall a, keeps_position (k a)) ->
  keeps_position (bind m k).
Proof.
  intros Hm Hk st p Hp. unfold bind.
  specialize (Hm st p Hp). destruct (m st) as [st1 [a|e]]; simpl in Hm.
  - apply Hk, Hm.
  - exact Hm.
Qed.

Lemma keeps_pure {A : Type} (r : result A) : keeps_position (lift r).
Proof. intros st p Hp. exact Hp. Qed.

Lemma keeps_ret {A : Type} (a : A) : keeps_position (ret a).
Proof. intros st p Hp. exact Hp. Qed.

Lemma keeps_gets {A : Type} (f : bot -> A) : keeps_position (gets f).
Proof. intros st p Hp. exact Hp. Qed.

Lemma keeps_print (ev : event) : keeps_position (print ev).
Proof. intros st p Hp. exact Hp. Qed.

Lemma keeps_set_candles (cs : list candle) : keeps_position (set_candles cs).
Proof. intros st p Hp. exact Hp. Qed.

Lemma keeps_execute_trade (ty : trade_type) (s : signal) :
  keeps_position (execute_trade ty s).
Proof.
  intros st p Hp. rewrite (execute_trade_taken ty s st p Hp). reflexivity.
Qed.

Lemma keeps_analyze_patterns : keeps_position analyze_patterns.
Proof.
  unfold analyze_patterns.
  apply keeps_bind; [apply keeps_gets|intros cs].
  apply keeps_bind; [apply keeps_pure|intros l].
  apply keeps_bind; [apply keeps_pure|intros _].
  apply keeps_bind; [apply keeps_print|intros _].
  apply keeps_bind; [apply keeps_pure|intros dt].
  apply keeps_bind.
  { destruct dt as [s|]; [|apply keeps_ret].
    apply keeps_bind; [apply keeps_print|intros _; apply keeps_execute_trade]. }
  intros _.
  apply keeps_bind; [apply keeps_gets|intros cs'].
  apply keeps_bind; [apply keeps_pure|intros db].
  destruct db as [s|]; [|apply keeps_ret].
  apply keeps_bind; [apply keeps_print|intros _; apply keeps_execute_trade].
Qed.

Lemma keeps_append_candles (raw : list ohlc) :
  keeps_position (append_candles raw).
Proof.
  induction raw as [|o raw IH]; [apply keeps_ret|].
  cbn [append_candles].
  apply keeps_bind; [apply keeps_pure|intros c].
  apply keeps_bind; [apply keeps_gets|intros cs].
  apply keeps_bind; [apply keeps_set_candles|intros _]. exact IH.
Qed.

Lemma keeps_process_candles (raw : list ohlc) :
  keeps_position (process_candles raw).
Proof.
  unfold process_candles.
  apply keeps_bind; [apply keeps_set_candles|intros _].
  apply keeps_bind; [apply keeps_append_candles|intros _].
  apply keeps_bind; [apply keeps_gets|intros cs].
  apply keeps_bind; [apply keeps_print|intros _].
  apply keeps_analyze_patterns.
Qed.

Lemma keeps_update_candle (o : ohlc) : keeps_position (update_candle o).
Proof.
  unfold update_candle.
  apply keeps_bind; [apply keeps_pure|intros c].
  apply keeps_bind; [apply keeps_gets|intros cs].
  destruct (last_time_is cs (time c)); [apply keeps_set_candles|].
  apply keeps_bind; [apply keeps_set_candles|intros _].
  apply keeps_bind; [apply keeps_gets|intros cs1].
  apply keeps_bind; [|intros _; apply keeps_analyze_patterns].
  destruct (lookback_period <? length cs1);
    [apply keeps_set_candles|apply keeps_ret].
Qed.

(** X4: once a position is open, no method of the bot replaces or clears
    it: not a trade, not an analysis pass, not an update, not a load of
    history, whether they return or raise, and so not any run of updates. *)
Theorem position_is_never_replaced (st : bot) (p : position_t) :
  position st = Some p ->
  (forall ty s, position (fst (execute_trade ty s st)) = Some p) /\
  position (fst (analyze_patterns st)) = Some p /\
  (forall o, position (fst (update_candle o st)) = Some p) /\
  (forall raw, position (fst (process_candles raw st)) = Some p) /\
  (forall os, position (feed os st) = Some p).
Proof.
  intros Hp.
  split; [intros ty s; apply keeps_execute_trade, Hp|].
  split; [apply keeps_analyze_patterns, Hp|].
  split; [intros o; apply keeps_update_candle, Hp|].
  split; [intros raw; apply keeps_process_candles, Hp|].
  intros os. revert st Hp. induction os as [|o os IH]; intros st Hp;
    [exact Hp|].
  apply IH, keeps_update_candle, Hp.
Qed.

(** ** The shape of the window after an update *)

Lemma py_last_app (w : list candle) (c : candle) : py_last (w ++ [c]) = Ok c.
Proof.
  unfold py_last. destruct (w ++ [c]) as [|c0 r] eqn:E.
  - destruct w; discriminate.
  - rewrite <- E, last_last. reflexivity.
Qed.

Lemma window_after_last (w : list candle) (c : candle) :
  py_last (window_after w c) = Ok c.
Proof.
  unfold window_after.
  destruct (last_time_is w (time c)); [apply py_last_app|].
  cbv zeta. destruct (Nat.ltb_spec lookback_period (length (w ++ [c])))
    as [H|H]; [|apply py_last_app].
  destruct w as [|c0 w0].
  - pose proof lookback_pos. simpl in H. lia.
  - simpl. apply py_last_app.
Qed.

Lemma window_after_length (w : list candle) (c : candle) :
  length (window_after w c) =
  if last_time_is w (time c) then length w
  else if length w <? lookback_period then S (length w) else length w.
Proof.
  unfold window_after.
  destruct (last_time_is w (time c)) eqn:El.
  - destruct (last_time_is_inv _ _ El) as (l & Hl & _).
    apply py_last_snoc in Hl. rewrite Hl at 2.
    rewrite !length_app. reflexivity.
  - cbv zeta. rewrite length_app. simpl length.
    destruct (Nat.ltb_spec lookback_period (length w + 1)) as [H|H];
      destruct (Nat.ltb_spec (length w) lookback_period) as [H'|H'];
      try lia.
    + destruct w as [|c0 w0]; [pose proof lookback_pos; simpl in *; lia|].
      simpl. rewrite length_app. simpl. lia.
    + rewrite length_app. simpl. lia.
Qed.

(** X5: after an update with a well-formed candle, the last candle of the
    window is that candle, on the replacing and on the appending branch,
    also when the analysis that follows the append raises. *)
Theorem update_puts_candle_last (st : bot) (o : ohlc) (c : candle) :
  make_candle o = Ok c ->
  py_last (candles (fst (update_candle o st))) = Ok c.
Proof.
  intros Ho. rewrite (update_candle_candles o c st Ho).
  apply window_after_last.
Qed.

(** X6: an update with a well-formed candle never shortens the window: the
    length stays the same when the last candle is replaced and when the
    window already holds [lookback_period] candles or more, and grows by
    one otherwise; a window that was loaded with more than
    [lookback_period] candles is therefore never brought back under it. *)
Theorem update_never_shortens (st : bot) (o : ohlc) (c : candle) :
  make_candle o = Ok c ->
  let n := length (candles st) in
  let n' := length (candles (fst (update_candle o st))) in
  n' = (if last_time_is (candles st) (time c) then n
        else if n <? lookback_period then S n else n) /\
  n <= n' <= S n /\
  (lookback_period <= n -> n' = n).
Proof.
  intros Ho n n'. subst n n'.
  rewrite (update_candle_candles o c st Ho), window_after_length.
  destruct (last_time_is (candles st) (time c));
    destruct (Nat.ltb_spec (length (candles st)) lookback_period);
    repeat split; lia.
Qed.

(** X7: an update is not undone when the analysis fails: if the candle is
    new and [datetime.fromtimestamp] rejects its time, the call raises that
    exception, nothing is printed and no pattern is looked for, but the
    candle has been appended (and the oldest one evicted if the window was
    full). *)
Theorem update_survives_bad_time (st : bot) (o : ohlc) (c : candle) (e : exn) :
  make_candle o = Ok c ->
  last_time_is (candles st) (time c) = false ->
  fromtimestamp (time c) = Raise e ->
  update_candle o st =
  (mk_bot (window_after (candles st) c) (position st) (log st), Raise e).
Proof.
  intros Ho Hl He.
  pose proof (window_after_last (candles st) c) as Hlast.
  unfold window_after in Hlast |- *. rewrite Hl in Hlast |- *.
  cbv zeta in Hlast |- *.
  unfold update_candle, bind, lift, gets, set_candles, ret.
  rewrite Ho. cbn [candles position log]. rewrite Hl.
  cbn [candles position log].
  destruct (lookback_period <? length (candles st ++ [c]));
    cbn [candles position log]; unfold analyze_patterns, bind, gets, lift;
    cbn [candles position log]; rewrite Hlast, He; reflexivity.
Qed.

(** ** More on loading history *)

Lemma append_candles_stops (cs : list candle) :
  forall (pre rest : list ohlc) (bad : ohlc) (e : exn) (st : bot),
    map make_candle pre = map Ok cs ->
    make_candle bad = Raise e ->
    append_candles (pre ++ bad :: rest) st =
    (mk_bot (candles st ++ cs) (position st) (log st), Raise e).
Proof.
  induction cs as [|c cs IH]; intros pre rest bad e st Hpre Hbad.
  - destruct pre; [|discriminate]. destruct st. simpl.
    unfold bind, lift. rewrite Hbad. rewrite app_nil_r. reflexivity.
  - destruct pre as [|o pre]; [discriminate|].
    simpl in Hpre. injection Hpre as Ho Hpre.
    rewrite <- app_comm_cons.
    cbn [append_candles]. unfold bind, lift, gets, set_candles.
    rewrite Ho. cbn [candles position log].
    rewrite (IH pre rest bad e _ Hpre Hbad). cbn [candles position log].
    rewrite <- app_assoc. reflexivity.
Qed.

(** X8: a load of well-formed history leaves exactly the loaded sequence
    in the window, whatever the window held before, whatever its length
    (the cap of [lookback_period] is not applied) and whether or not the
    analysis then raises; so loading the same history again gives the same
    window. *)
Theorem load_replaces_window (raw : list ohlc) (cs : list candle) (st : bot) :
  map make_candle raw = map Ok cs ->
  candles (fst (process_candles raw st)) = cs /\
  length (candles (fst (process_candles raw st))) = length raw /\
  candles (fst (process_candles raw (fst (process_candles raw st)))) =
  candles (fst (process_candles raw st)).
Proof.
  intros Hraw.
  rewrite !(process_candles_window raw cs _ Hraw).
  split; [reflexivity|]. split; [|reflexivity].
  rewrite <- (length_map make_candle raw), Hraw, length_map. reflexivity.
Qed.

(** X9: a load stops at the first candle that cannot be converted: the
    window is left holding only the candles before it, the exception of the
    conversion is raised, nothing is printed, no analysis runs, and the
    position is untouched. *)
Theorem load_stops_at_malformed (pre rest : list ohlc) (bad : ohlc)
    (cs : list candle) (e : exn) (st : bot) :
  map make_candle pre = map Ok cs ->
  make_candle bad = Raise e ->
  process_candles (pre ++ bad :: rest) st =
  (mk_bot cs (position st) (log st), Raise e).
Proof.
  intros Hpre Hbad. unfold process_candles, bind, set_candles.
  rewrite (append_candles_stops cs pre rest bad e _ Hpre Hbad).
  reflexivity.
Qed.

(** X10: history and stream compose: after a load of at most
    [lookback_period] well-formed candles followed by updates, all times
    strictly increasing, the window holds the most recent
    [lookback_period] candles of the history followed by the updates, in
    order. *)
Theorem load_then_stream (raw os : list ohlc) (hist cs : list candle)
    (st : bot) :
  map make_candle raw = map Ok hist ->
  map make_candle os = map Ok cs ->
  length hist <= lookback_period ->
  increasing (map time (hist ++ cs)) = true ->
  candles (feed os (fst (process_candles raw st))) =
  skipn (length (hist ++ cs) - lookback_period) (hist ++ cs).
Proof.
  intros Hraw Hos Hlen Hinc.
  pose proof (process_candles_window raw hist st Hraw) as Hw.
  rewrite (feed_window cs os _ Hos); rewrite Hw; trivial.
Qed.

(** ** More on the analysis pass *)

(** X11: on a window of fewer than twenty candles an analysis pass prints
    that it analyses and nothing else: no pattern is reported, no trade is
    made and nothing is raised. *)
Theorem short_window_only_analyzes (st : bot) (l : candle) :
  py_last (candles st) = Ok l ->
  fromtimestamp (time l) = Ok tt ->
  length (candles st) < 20 ->
  analyze_patterns st =
  (mk_bot (candles st) (position st) (log st ++ [Analyzing (time l)]), Ok tt).
Proof.
  intros Hl Ht Hlen. apply Nat.ltb_lt in Hlen.
  unfold analyze_patterns, bind, gets, lift, print, ret.
  rewrite Hl, Ht. cbn [candles position log].
  unfold detect_double_top. rewrite Hlen. cbn [candles position log].
  unfold detect_double_bottom. rewrite Hlen. reflexivity.
Qed.

(** ** The list accesses of the detectors *)

Lemma py_index_inv {A : Type} (l : list A) (i : nat) (x : A) :
  py_index l i = Ok x -> nth_error l i = Some x.
Proof.
  unfold py_index. destruct (nth_error l i); [intros [= ->]; reflexivity|].
  discriminate.
Qed.

Lemma py_index_lt {A : Type} (l : list A) (i : nat) :
  i < length l -> exists x, py_index l i = Ok x /\ nth_error l i = Some x.
Proof.
  intros Hi. unfold py_index. apply nth_error_Some in Hi.
  destruct (nth_error l i) as [x|]; [eauto|contradiction].
Qed.

Lemma between_inv (f : candle -> float) (cs : list candle) :
  forall (js : list nat) (bl : list float),
    fold_right
      (fun j acc => (let? c := py_index cs j in
                     let? t := acc in Ok (f c :: t))%result)
      (Ok []) js = Ok bl ->
    Forall2 (fun j x => exists c, nth_error cs j = Some c /\ f c = x) js bl.
Proof.
  induction js as [|j js IH]; intros bl H; simpl in H.
  - injection H as <-. constructor.
  - destruct (py_index cs j) as [c|] eqn:Ec; cbn [rbind] in H; [|discriminate].
    match type of H with
    | rbind ?r _ = _ => destruct r as [t|]; cbn [rbind] in H; [|discriminate]
    end.
    injection H as <-. constructor; [|apply IH; reflexivity].
    exists c. split; [apply py_index_inv, Ec|reflexivity].
Qed.

Lemma between_ok (f : candle -> float) (cs : list candle) :
  forall js : list nat,
    (forall j, In j js -> j < length cs) ->
    exists bl,
      fold_right
        (fun j acc => (let? c := py_index cs j in
                       let? t := acc in Ok (f c :: t))%result)
        (Ok []) js = Ok bl /\ length bl = length js.
Proof.
  induction js as [|j js IH]; intros Hjs; simpl.
  - exists []. split; reflexivity.
  - destruct (py_index_lt cs j (Hjs j (or_introl eq_refl))) as (c & -> & _).
    destruct IH as (t & -> & Ht); [intros k Hk; apply Hjs; right; exact Hk|].
    cbn [rbind]. exists (f c :: t). split; [reflexivity|]. simpl. lia.
Qed.

Lemma Forall2_In_r {A B : Type} (R : A -> B -> Prop) (l : list A)
    (l' : list B) (y : B) :
  Forall2 R l l' -> In y l' -> exists x, In x l /\ R x y.
Proof.
  induction 1 as [|a b l l' Hab Hl IH]; intros Hy; [destruct Hy|].
  destruct Hy as [<-|Hy].
  - exists a. split; [left; reflexivity|exact Hab].
  - destruct (IH Hy) as (x & Hx & Hr). exists x. split; [right|]; assumption.
Qed.

Lemma fold_py_min_In (t : list float) :
  forall x, In (fold_left py_min t x) (x :: t).
Proof.
  induction t as [|y t IH]; intros x; [left; reflexivity|].
  cbn [fold_left]. specialize (IH (py_min x y)).
  destruct IH as [H|H]; [|right; right; exact H].
  rewrite <- H. unfold py_min.
  destruct (PrimFloat.ltb y x); [right; left|left]; reflexivity.
Qed.

Lemma fold_py_max_In (t : list float) :
  forall x, In (fold_left py_max t x) (x :: t).
Proof.
  induction t as [|y t IH]; intros x; [left; reflexivity|].
  cbn [fold_left]. specialize (IH (py_max x y)).
  destruct IH as [H|H]; [|right; right; exact H].
  rewrite <- H. unfold py_max.
  destruct (PrimFloat.ltb x y); [right; left|left]; reflexivity.
Qed.

Lemma py_min_list_In (l : list float) (m : float) :
  py_min_list l = Ok m -> In m l.
Proof.
  destruct l as [|x t]; [discriminate|]. intros [= <-]. apply fold_py_min_In.
Qed.

Lemma py_max_list_In (l : list float) (m : float) :
  py_max_list l = Ok m -> In m l.
Proof.
  destruct l as [|x t]; [discriminate|]. intros [= <-]. apply fold_py_max_In.
Qed.

Lemma find_peaks_lt (data : list float) (order p : nat) :
  In p (find_peaks data order) -> p < length data.
Proof.
  unfold find_peaks, range. intros H. apply filter_In in H.
  destruct H as [H _]. apply in_seq in H. lia.
Qed.

Lemma find_troughs_lt (data : list float) (order p : nat) :
  In p (find_troughs data order) -> p < length data.
Proof.
  unfold find_troughs, range. intros H. apply filter_In in H.
  destruct H as [H _]. apply in_seq in H. lia.
Qed.

Lemma scan_tops_raise (cs : list candle) (peaks : list nat) (e : exn) :
  cs <> [] ->
  (forall p, In p peaks -> p < length cs) ->
  forall idxs,
    (forall i, In i idxs -> i + 1 < length peaks) ->
    scan_tops cs (map high cs) peaks idxs = Raise e ->
    e = ZeroDivisionError /\
    exists c, In c cs /\ PrimFloat.eqb (high c) 0 = true.
Proof.
  intros Hne Hpk. induction idxs as [|i rest IH]; intros Hidx H;
    [discriminate|].
  assert (Hrest : scan_tops cs (map high cs) peaks rest = Raise e ->
                  e = ZeroDivisionError /\
                  exists c, In c cs /\ PrimFloat.eqb (high c) 0 = true).
  { apply IH. intros k Hk. apply Hidx. right. exact Hk. }
  pose proof (Hidx i (or_introl eq_refl)) as Hi.
  cbn [scan_tops] in H.
  destruct (py_index_lt peaks i ltac:(lia)) as (p1 & E1 & N1).
  destruct (py_index_lt peaks (i + 1) Hi) as (p2 & E2 & N2).
  rewrite E1, E2 in H. cbn [rbind] in H.
  apply nth_error_In in N1, N2. apply Hpk in N1, N2.
  destruct (Nat.ltb_spec (p2 - p1) min_candles_between) as [Hg|Hg];
    [exact (Hrest H)|].
  destruct (py_index_lt cs p1 N1) as (c1 & _ & Hc1).
  destruct (py_index_lt cs p2 N2) as (c2 & _ & Hc2).
  unfold py_index at 1 2 in H.
  rewrite !nth_error_map, Hc1, Hc2 in H. cbn [option_map rbind] in H.
  unfold py_div at 1 in H.
  destruct (PrimFloat.eqb (high c1) 0) eqn:Ez; cbn [rbind] in H.
  { injection H as <-. split; [reflexivity|].
    exists c1. split; [eapply nth_error_In; exact Hc1|exact Ez]. }
  match type of H with
  | (if ?b then _ else _) = _ => destruct b; [|exact (Hrest H)]
  end.
  destruct (between_ok low cs (range p1 (p2 + 1))) as (bl & Eb & Hbl).
  { intros j Hj. unfold range in Hj. apply in_seq in Hj. lia. }
  rewrite Eb in H. cbn [rbind] in H.
  destruct bl as [|b0 bl'].
  { unfold range in Hbl. rewrite length_seq in Hbl.
    unfold min_candles_between in Hg. simpl in Hbl. lia. }
  cbn [py_min_list rbind] in H.
  destruct cs as [|c0 cs']; [contradiction|].
  cbn [py_last rbind] in H. cbv zeta in H.
  match type of H with
  | (if ?b then _ else _) = _ => destruct b; [discriminate|exact (Hrest H)]
  end.
Qed.

Lemma detect_double_top_raise (cs : list candle) (e : exn) :
  detect_double_top cs = Raise e ->
  e = ZeroDivisionError /\
  exists c, In c cs /\ PrimFloat.eqb (high c) 0 = true.
Proof.
  unfold detect_double_top.
  destruct (Nat.ltb_spec (length cs) 20) as [Hl|Hl]; [discriminate|].
  cbv zeta.
  destruct (Nat.ltb_spec (length (find_peaks (map high cs) 3)) 2)
    as [Hp|Hp]; [discriminate|].
  apply scan_tops_raise.
  - destruct cs; [simpl in Hl; lia|discriminate].
  - intros p Hin. apply find_peaks_lt in Hin.
    rewrite length_map in Hin. exact Hin.
  - intros i Hi. apply in_rev in Hi. unfold range in Hi.
    apply in_seq in Hi. lia.
Qed.

Lemma detect_double_top_nonzero (cs : list candle) :
  (forall c, In c cs -> PrimFloat.eqb (high c) 0 = false) ->
  exists r, detect_double_top cs = Ok r.
Proof.
  intros Hnz. destruct (detect_double_top cs) as [r|e] eqn:E; [eauto|].
  destruct (detect_double_top_raise cs e E) as (_ & c & Hc & Hz).
  rewrite (Hnz c Hc) in Hz. discriminate.
Qed.

(** X12: [detect_double_top] never fails on a list access or on an empty
    minimum: the only exception it raises is [ZeroDivisionError], and only
    on a window that has a candle whose high is zero; on a window whose
    highs are all different from zero it returns. *)
Theorem double_top_only_divides_by_zero (cs : list candle) :
  (forall e, detect_double_top cs = Raise e ->
             e = ZeroDivisionError /\
             exists c, In c cs /\ PrimFloat.eqb (high c) 0 = true) /\
  (forallb (fun c => negb (PrimFloat.eqb (high c) 0)) cs = true ->
   exists r, detect_double_top cs = Ok r).
Proof.
  split; [apply detect_double_top_raise|].
  intros Hnz. apply detect_double_top_nonzero. intros c Hc.
  rewrite forallb_forall in Hnz. apply negb_true_iff, Hnz, Hc.
Qed.

Lemma scan_bottoms_raise (cs : list candle) (troughs : list nat) (e : exn) :
  cs <> [] ->
  (forall p, In p troughs -> p < length cs) ->
  forall idxs,
    (forall i, In i idxs -> i + 1 < length troughs) ->
    scan_bottoms cs (map low cs) troughs idxs = Raise e ->
    e = ZeroDivisionError /\
    exists c, In c cs /\ PrimFloat.eqb (low c) 0 = true.
Proof.
  intros Hne Hpk. induction idxs as [|i rest IH]; intros Hidx H;
    [discriminate|].
  assert (Hrest : scan_bottoms cs (map low cs) troughs rest = Raise e ->
                  e = ZeroDivisionError /\
                  exists c, In c cs /\ PrimFloat.eqb (low c) 0 = true).
  { apply IH. intros k Hk. apply Hidx. right. exact Hk. }
  pose proof (Hidx i (or_introl eq_refl)) as Hi.
  cbn [scan_bottoms] in H.
  destruct (py_index_lt troughs i ltac:(lia)) as (p1 & E1 & N1).
  destruct (py_index_lt troughs (i + 1) Hi) as (p2 & E2 & N2).
  rewrite E1, E2 in H. cbn [rbind] in H.
  apply nth_error_In in N1, N2. apply Hpk in N1, N2.
  destruct (Nat.ltb_spec (p2 - p1) min_candles_between) as [Hg|Hg];
    [exact (Hrest H)|].
  destruct (py_index_lt cs p1 N1) as (c1 & _ & Hc1).
  destruct (py_index_lt cs p2 N2) as (c2 & _ & Hc2).
  unfold py_index at 1 2 in H.
  rewrite !nth_error_map, Hc1, Hc2 in H. cbn [option_map rbind] in H.
  unfold py_div at 1 in H.
  destruct (PrimFloat.eqb (low c1) 0) eqn:Ez; cbn [rbind] in H.
  { injection H as <-. split; [reflexivity|].
    exists c1. split; [eapply nth_error_In; exact Hc1|exact Ez]. }
  match type of H with
  | (if ?b then _ else _) = _ => destruct b; [|exact (Hrest H)]
  end.
  destruct (between_ok high cs (range p1 (p2 + 1))) as (bl & Eb & Hbl).
  { intros j Hj. unfold range in Hj. apply in_seq in Hj. lia. }
  rewrite Eb in H. cbn [rbind] in H.
  destruct bl as [|b0 bl'].
  { unfold range in Hbl. rewrite length_seq in Hbl.
    unfold min_candles_between in Hg. simpl in Hbl. lia. }
  cbn [py_max_list rbind] in H.
  destruct cs as [|c0 cs']; [contradiction|].
  cbn [py_last rbind] in H. cbv zeta in H.
  match type of H with
  | (if ?b then _ else _) = _ => destruct b; [discriminate|exact (Hrest H)]
  end.
Qed.

Lemma detect_double_bottom_raise (cs : list candle) (e : exn) :
  detect_double_bottom cs = Raise e ->
  e = ZeroDivisionError /\
  exists c, In c cs /\ PrimFloat.eqb (low c) 0 = true.
Proof.
  unfold detect_double_bottom.
  destruct (Nat.ltb_spec (length cs) 20) as [Hl|Hl]; [discriminate|].
  cbv zeta.
  destruct (Nat.ltb_spec (length (find_troughs (map low cs) 3)) 2)
    as [Hp|Hp]; [discriminate|].
  apply scan_bottoms_raise.
  - destruct cs; [simpl in Hl; lia|discriminate].
  - intros p Hin. apply find_troughs_lt in Hin.
    rewrite length_map in Hin. exact Hin.
  - intros i Hi. apply in_rev in Hi. unfold range in Hi.
    apply in_seq in Hi. lia.
Qed.

Lemma detect_double_bottom_nonzero (cs : list candle) :
  (forall c, In c cs -> PrimFloat.eqb (low c) 0 = false) ->
  exists r, detect_double_bottom cs = Ok r.
Proof.
  intros Hnz. destruct (detect_double_bottom cs) as [r|e] eqn:E; [eauto|].
  destruct (detect_double_bottom_raise cs e E) as (_ & c & Hc & Hz).
  rewrite (Hnz c Hc) in Hz. discriminate.
Qed.

(** X13: [detect_double_bottom] likewise raises nothing but
    [ZeroDivisionError], and only on a window that has a candle whose low
    is zero; on a window whose lows are all different from zero it
    returns. *)
Theorem double_bottom_only_divides_by_zero (cs : list candle) :
  (forall e, detect_double_bottom cs = Raise e ->
             e = ZeroDivisionError /\
             exists c, In c cs /\ PrimFloat.eqb (low c) 0 = true) /\
  (forallb (fun c => negb (PrimFloat.eqb (low c) 0)) cs = true ->
   exists r, detect_double_bottom cs = Ok r).
Proof.
  split; [apply detect_double_bottom_raise|].
  intros Hnz. apply detect_double_bottom_nonzero. intros c Hc.
  rewrite forallb_forall in Hnz. apply negb_true_iff, Hnz, Hc.
Qed.

Lemma analyze_patterns_ok (st : bot) (l : candle) :
  py_last (candles st) = Ok l ->
  fromtimestamp (time l) = Ok tt ->
  (exists r, detect_double_top (candles st) = Ok r) ->
  (exists r, detect_double_bottom (candles st) = Ok r) ->
  snd (analyze_patterns st) = Ok tt.
Proof.
  intros Hl Ht [r1 H1] [r2 H2].
  unfold analyze_patterns, bind, gets, lift, print, ret.
  rewrite Hl, Ht. cbn [candles position log]. rewrite H1.
  destruct r1 as [s1|].
  - match goal with
    | |- context [execute_trade PUT s1 ?st1] =>
        pose proof (execute_trade_candles PUT s1 st1) as Hc;
        pose proof (execute_trade_ok PUT s1 st1) as Hr;
        destruct (execute_trade PUT s1 st1) as [st2 r]
    end.
    simpl in Hc, Hr. subst r. rewrite Hc, H2.
    destruct r2 as [s2|]; [|reflexivity].
    apply execute_trade_ok.
  - cbn [candles position log]. rewrite H2.
    destruct r2 as [s2|]; [|reflexivity].
    apply execute_trade_ok.
Qed.

(** X14: an update never raises when the candle is well formed, its time is
    one that [datetime.fromtimestamp] accepts, and no candle of the window,
    nor the new one, has a high or a low equal to zero. *)
Theorem update_returns_on_nonzero_prices (st : bot) (o : ohlc) (c : candle) :
  make_candle o = Ok c ->
  fromtimestamp (time c) = Ok tt ->
  forallb (fun x => negb (PrimFloat.eqb (high x) 0)
                    && negb (PrimFloat.eqb (low x) 0))
          (c :: candles st) = true ->
  snd (update_candle o st) = Ok tt.
Proof.
  intros Ho Ht Hnz.
  assert (Hw : forall x, In x (window_after (candles st) c) ->
                         PrimFloat.eqb (high x) 0 = false /\
                         PrimFloat.eqb (low x) 0 = false).
  { intros x Hx. rewrite forallb_forall in Hnz.
    assert (Hin : In x (c :: candles st)).
    { apply window_after_In in Hx. destruct Hx as [Hx| ->];
        [right; exact Hx|left; reflexivity]. }
    specialize (Hnz x Hin). apply andb_true_iff in Hnz.
    destruct Hnz as [Hh Hl]. apply negb_true_iff in Hh, Hl. split; assumption. }
  pose proof (window_after_last (candles st) c) as Hlast.
  unfold window_after in Hw, Hlast.
  unfold update_candle, bind, lift, gets, set_candles, ret.
  rewrite Ho. cbn [candles position log].
  destruct (last_time_is (candles st) (time c)); [reflexivity|].
  cbv zeta in Hw, Hlast. cbn [candles position log].
  revert Hw Hlast.
  destruct (lookback_period <? length (candles st ++ [c])); intros Hw Hlast;
    cbn [candles position log];
    (apply (analyze_patterns_ok _ c);
     [exact Hlast | exact Ht
     | apply detect_double_top_nonzero; intros x Hx; apply Hw, Hx
     | apply detect_double_bottom_nonzero; intros x Hx; apply Hw, Hx]).
Qed.

(** ** Which pair a detector reports *)

Lemma scan_tops_cons (cs : list candle) (highs : list float)
    (peaks : list nat) (i : nat) (rest : list nat) :
  scan_tops cs highs peaks (i :: rest) =
  match scan_tops cs highs peaks [i] with
  | Ok None => scan_tops cs highs peaks rest
  | r => r
  end.
Proof.
  cbn [scan_tops].
  destruct (py_index peaks i) as [p1|]; cbn [rbind]; [|reflexivity].
  destruct (py_index peaks (i + 1)) as [p2|]; cbn [rbind]; [|reflexivity].
  destruct (p2 - p1 <? min_candles_between); [reflexivity|].
  destruct (py_index highs p1) as [h1|]; cbn [rbind]; [|reflexivity].
  destruct (py_index highs p2) as [h2|]; cbn [rbind]; [|reflexivity].
  destruct (py_div (PrimFloat.abs (h1 - h2)) h1) as [d|]; cbn [rbind];
    [|reflexivity].
  destruct (PrimFloat.leb d tolerance); [|reflexivity].
  match goal with
  | |- rbind ?r _ = _ => destruct r as [bl|]; cbn [rbind]; [|reflexivity]
  end.
  destruct (py_min_list bl) as [nk|]; cbn [rbind]; [|reflexivity].
  destruct (py_last cs) as [l|]; cbn [rbind]; [|reflexivity].
  cbv zeta. destruct (PrimFloat.ltb (close l) nk); reflexivity.
Qed.

(** The pairs are visited from the last one down to the first. *)
Lemma scan_tops_desc (cs : list candle) (highs : list float)
    (peaks : list nat) (s : signal) :
  forall n,
    scan_tops cs highs peaks (rev (range 0 n)) = Ok (Some s) ->
    exists i,
      i < n /\
      scan_tops cs highs peaks [i] = Ok (Some s) /\
      forall k, i < k < n -> scan_tops cs highs peaks [k] = Ok None.
Proof.
  unfold range. induction n as [|n IH]; intros H; [discriminate|].
  replace (S n - 0) with (S n) in H by lia.
  rewrite seq_S, rev_app_distr in H. cbn [rev app Nat.add] in H.
  rewrite scan_tops_cons in H.
  destruct (scan_tops cs highs peaks [n]) as [[s'|]|e] eqn:En.
  - exists n. split; [lia|]. split; [rewrite <- H; exact En|].
    intros k Hk. lia.
  - replace (n - 0) with n in IH by lia.
    destruct (IH H) as (i & Hi & Hs & Hlater).
    exists i. split; [lia|]. split; [exact Hs|].
    intros k Hk. destruct (Nat.eq_dec k n) as [->|Hkn]; [exact En|].
    apply Hlater. lia.
  - discriminate.
Qed.

Lemma scan_bottoms_cons (cs : list candle) (lows : list float)
    (troughs : list nat) (i : nat) (rest : list nat) :
  scan_bottoms cs lows troughs (i :: rest) =
  match scan_bottoms cs lows troughs [i] with
  | Ok None => scan_bottoms cs lows troughs rest
  | r => r
  end.
Proof.
  cbn [scan_bottoms].
  destruct (py_index troughs i) as [p1|]; cbn [rbind]; [|reflexivity].
  destruct (py_index troughs (i + 1)) as [p2|]; cbn [rbind]; [|reflexivity].
  destruct (p2 - p1 <? min_candles_between); [reflexivity|].
  destruct (py_index lows p1) as [h1|]; cbn [rbind]; [|reflexivity].
  destruct (py_index lows p2) as [h2|]; cbn [rbind]; [|reflexivity].
  destruct (py_div (PrimFloat.abs (h1 - h2)) h1) as [d|]; cbn [rbind];
    [|reflexivity].
  destruct (PrimFloat.leb d tolerance); [|reflexivity].
  match goal with
  | |- rbind ?r _ = _ => destruct r as [bl|]; cbn [rbind]; [|reflexivity]
  end.
  destruct (py_max_list bl) as [nk|]; cbn [rbind]; [|reflexivity].
  destruct (py_last cs) as [l|]; cbn [rbind]; [|reflexivity].
  cbv zeta. destruct (PrimFloat.ltb nk (close l)); reflexivity.
Qed.

(** The pairs are visited from the last one down to the first. *)
Lemma scan_bottoms_desc (cs : list candle) (lows : list float)
    (troughs : list nat) (s : signal) :
  forall n,
    scan_bottoms cs lows troughs (rev (range 0 n)) = Ok (Some s) ->
    exists i,
      i < n /\
      scan_bottoms cs lows troughs [i] = Ok (Some s) /\
      forall k, i < k < n -> scan_bottoms cs lows troughs [k] = Ok None.
Proof.
  unfold range. induction n as [|n IH]; intros H; [discriminate|].
  replace (S n - 0) with (S n) in H by lia.
  rewrite seq_S, rev_app_distr in H. cbn [rev app Nat.add] in H.
  rewrite scan_bottoms_cons in H.
  destruct (scan_bottoms cs lows troughs [n]) as [[s'|]|e] eqn:En.
  - exists n. split; [lia|]. split; [rewrite <- H; exact En|].
    intros k Hk. lia.
  - replace (n - 0) with n in IH by lia.
    destruct (IH H) as (i & Hi & Hs & Hlater).
    exists i. split; [lia|]. split; [exact Hs|].
    intros k Hk. destruct (Nat.eq_dec k n) as [->|Hkn]; [exact En|].
    apply Hlater. lia.
  - discriminate.
Qed.

Lemma top_pair_inv (cs : list candle) (highs : list float) (peaks : list nat)
    (i : nat) (s : signal) :
  scan_tops cs highs peaks [i] = Ok (Some s) ->
  exists p1 p2 d bl l,
    py_index peaks i = Ok p1 /\ py_index peaks (i + 1) = Ok p2 /\
    min_candles_between <= p2 - p1 /\
    py_index highs p1 = Ok (peak1 s) /\ py_index highs p2 = Ok (peak2 s) /\
    py_div (PrimFloat.abs (peak1 s - peak2 s)) (peak1 s) = Ok d /\
    PrimFloat.leb d tolerance = true /\
    Forall2 (fun j x => exists c, nth_error cs j = Some c /\ low c = x)
            (range p1 (p2 + 1)) bl /\
    py_min_list bl = Ok (neckline s) /\
    py_last cs = Ok l /\ entry s = close l /\
    PrimFloat.ltb (entry s) (neckline s) = true /\
    pattern s = double_top /\
    stop_loss s = py_max (peak1 s) (peak2 s) /\
    take_profit s = (neckline s - (stop_loss s - neckline s))%float.
Proof.
  intros H. cbn [scan_tops] in H.
  destruct (py_index peaks i) as [p1|] eqn:E1; cbn [rbind] in H; [|discriminate].
  destruct (py_index peaks (i + 1)) as [p2|] eqn:E2; cbn [rbind] in H;
    [|discriminate].
  destruct (Nat.ltb_spec (p2 - p1) min_candles_between) as [Hg|Hg];
    [discriminate|].
  destruct (py_index highs p1) as [h1|] eqn:E3; cbn [rbind] in H; [|discriminate].
  destruct (py_index highs p2) as [h2|] eqn:E4; cbn [rbind] in H; [|discriminate].
  destruct (py_div (PrimFloat.abs (h1 - h2)) h1) as [d|] eqn:Ed;
    cbn [rbind] in H; [|discriminate].
  destruct (PrimFloat.leb d tolerance) eqn:Et; [|discriminate].
  match type of H with
  | rbind ?r _ = _ =>
      destruct r as [bl|] eqn:Eb; cbn [rbind] in H; [|discriminate]
  end.
  destruct (py_min_list bl) as [nk|] eqn:En; cbn [rbind] in H; [|discriminate].
  destruct (py_last cs) as [l|] eqn:El; cbn [rbind] in H; [|discriminate].
  cbv zeta in H.
  destruct (PrimFloat.ltb (close l) nk) eqn:Ec; [|discriminate].
  injection H as <-. exists p1, p2, d, bl, l. unfold peak1, peak2.
  cbn [pattern ref1 ref2 neckline entry stop_loss take_profit].
  apply between_inv in Eb.
  repeat split; assumption || reflexivity.
Qed.

Lemma bottom_pair_inv (cs : list candle) (lows : list float)
    (troughs : list nat) (i : nat) (s : signal) :
  scan_bottoms cs lows troughs [i] = Ok (Some s) ->
  exists p1 p2 d bl l,
    py_index troughs i = Ok p1 /\ py_index troughs (i + 1) = Ok p2 /\
    min_candles_between <= p2 - p1 /\
    py_index lows p1 = Ok (trough1 s) /\ py_index lows p2 = Ok (trough2 s) /\
    py_div (PrimFloat.abs (trough1 s - trough2 s)) (trough1 s) = Ok d /\
    PrimFloat.leb d tolerance = true /\
    Forall2 (fun j x => exists c, nth_error cs j = Some c /\ high c = x)
            (range p1 (p2 + 1)) bl /\
    py_max_list bl = Ok (neckline s) /\
    py_last cs = Ok l /\ entry s = close l /\
    PrimFloat.ltb (neckline s) (entry s) = true /\
    pattern s = double_bottom /\
    stop_loss s = py_min (trough1 s) (trough2 s) /\
    take_profit s = (neckline s + (neckline s - stop_loss s))%float.
Proof.
  intros H. cbn [scan_bottoms] in H.
  destruct (py_index troughs i) as [p1|] eqn:E1; cbn [rbind] in H;
    [|discriminate].
  destruct (py_index troughs (i + 1)) as [p2|] eqn:E2; cbn [rbind] in H;
    [|discriminate].
  destruct (Nat.ltb_spec (p2 - p1) min_candles_between) as [Hg|Hg];
    [discriminate|].
  destruct (py_index lows p1) as [h1|] eqn:E3; cbn [rbind] in H; [|discriminate].
  destruct (py_index lows p2) as [h2|] eqn:E4; cbn [rbind] in H; [|discriminate].
  destruct (py_div (PrimFloat.abs (h1 - h2)) h1) as [d|] eqn:Ed;
    cbn [rbind] in H; [|discriminate].
  destruct (PrimFloat.leb d tolerance) eqn:Et; [|discriminate].
  match type of H with
  | rbind ?r _ = _ =>
      destruct r as [bl|] eqn:Eb; cbn [rbind] in H; [|discriminate]
  end.
  destruct (py_max_list bl) as [nk|] eqn:En; cbn [rbind] in H; [|discriminate].
  destruct (py_last cs) as [l|] eqn:El; cbn [rbind] in H; [|discriminate].
  cbv zeta in H.
  destruct (PrimFloat.ltb nk (close l)) eqn:Ec; [|discriminate].
  injection H as <-. exists p1, p2, d, bl, l. unfold trough1, trough2.
  cbn [pattern ref1 ref2 neckline entry stop_loss take_profit].
  apply between_inv in Eb.
  repeat split; assumption || reflexivity.
Qed.

Lemma detect_double_top_pair (cs : list candle) (s : signal) :
  detect_double_top cs = Ok (Some s) ->
  exists i,
    i + 1 < length (find_peaks (map high cs) 3) /\
    scan_tops cs (map high cs) (find_peaks (map high cs) 3) [i]
    = Ok (Some s) /\
    forall k, i < k -> k + 1 < length (find_peaks (map high cs) 3) ->
              scan_tops cs (map high cs) (find_peaks (map high cs) 3) [k]
              = Ok None.
Proof.
  unfold detect_double_top.
  destruct (length cs <? 20); [discriminate|]. cbv zeta.
  destruct (length (find_peaks (map high cs) 3) <? 2); [discriminate|].
  intros H. apply scan_tops_desc in H. destruct H as (i & Hi & Hs & Hlater).
  exists i. split; [lia|]. split; [exact Hs|].
  intros k Hk Hk'. apply Hlater. lia.
Qed.

Lemma detect_double_bottom_pair (cs : list candle) (s : signal) :
  detect_double_bottom cs = Ok (Some s) ->
  exists i,
    i + 1 < length (find_troughs (map low cs) 3) /\
    scan_bottoms cs (map low cs) (find_troughs (map low cs) 3) [i]
    = Ok (Some s) /\
    forall k, i < k -> k + 1 < length (find_troughs (map low cs) 3) ->
              scan_bottoms cs (map low cs) (find_troughs (map low cs) 3) [k]
              = Ok None.
Proof.
  unfold detect_double_bottom.
  destruct (length cs <? 20); [discriminate|]. cbv zeta.
  destruct (length (find_troughs (map low cs) 3) <? 2); [discriminate|].
  intros H. apply scan_bottoms_desc in H. destruct H as (i & Hi & Hs & Hlater).
  exists i. split; [lia|]. split; [exact Hs|].
  intros k Hk Hk'. apply Hlater. lia.
Qed.

Lemma neckline_between (f : candle -> float) (cs : list candle)
    (p1 p2 : nat) (bl : list float) (nk : float) :
  Forall2 (fun j x => exists c, nth_error cs j = Some c /\ f c = x)
          (range p1 (p2 + 1)) bl ->
  In nk bl ->
  exists j c, p1 <= j <= p2 /\ nth_error cs j = Some c /\ nk = f c.
Proof.
  intros HF Hin. destruct (Forall2_In_r _ _ _ _ HF Hin) as (j & Hj & c & Hc & Hf).
  unfold range in Hj. apply in_seq in Hj.
  exists j, c. split; [lia|]. split; [exact Hc|symmetry; exact Hf].
Qed.

(** X15: a detector reports the latest pair of consecutive extrema that
    passes its checks: the reported signal is the one of a single pair, and
    every later pair was checked, without an exception, and rejected. *)
Theorem latest_pair_is_reported (cs : list candle) (s : signal) :
  (detect_double_top cs = Ok (Some s) ->
   exists i,
     i + 1 < length (find_peaks (map high cs) 3) /\
     scan_tops cs (map high cs) (find_peaks (map high cs) 3) [i]
     = Ok (Some s) /\
     forall k, i < k -> k + 1 < length (find_peaks (map high cs) 3) ->
               scan_tops cs (map high cs) (find_peaks (map high cs) 3) [k]
               = Ok None) /\
  (detect_double_bottom cs = Ok (Some s) ->
   exists i,
     i + 1 < length (find_troughs (map low cs) 3) /\
     scan_bottoms cs (map low cs) (find_troughs (map low cs) 3) [i]
     = Ok (Some s) /\
     forall k, i < k -> k + 1 < length (find_troughs (map low cs) 3) ->
               scan_bottoms cs (map low cs) (find_troughs (map low cs) 3) [k]
               = Ok None).
Proof.
  split; [apply detect_double_top_pair|apply detect_double_bottom_pair].
Qed.

(** X16: what confirms a double top: the two peak prices differ, relative
    to the first, by at most [tolerance]; the neckline is the low of a
    candle that lies between the two peaks, ends included; the entry is
    strictly below the neckline; and the stop loss is one of the two peak
    prices. *)
Theorem double_top_confirmation (cs : list candle) (s : signal) :
  detect_double_top cs = Ok (Some s) ->
  exists p1 p2 d,
    py_index (map high cs) p1 = Ok (peak1 s) /\
    py_index (map high cs) p2 = Ok (peak2 s) /\
    p1 + min_candles_between <= p2 /\
    py_div (PrimFloat.abs (peak1 s - peak2 s)) (peak1 s) = Ok d /\
    PrimFloat.leb d tolerance = true /\
    (exists j c, p1 <= j <= p2 /\ nth_error cs j = Some c /\
                 neckline s = low c) /\
    PrimFloat.ltb (entry s) (neckline s) = true /\
    (stop_loss s = peak1 s \/ stop_loss s = peak2 s).
Proof.
  intros H. apply detect_double_top_pair in H. destruct H as (i & _ & H & _).
  apply top_pair_inv in H.
  destruct H as (p1 & p2 & d & bl & l & _ & _ & Hg & H1 & H2 & Hd & Ht
                 & Hbl & Hnk & _ & _ & Hlt & _ & Hsl & _).
  exists p1, p2, d.
  assert (Hmin : 0 < min_candles_between) by (unfold min_candles_between; lia).
  repeat split; try assumption; try lia.
  - apply (neckline_between low cs p1 p2 bl); [exact Hbl|].
    apply py_min_list_In, Hnk.
  - rewrite Hsl. unfold py_max.
    destruct (PrimFloat.ltb (peak1 s) (peak2 s)); [right|left]; reflexivity.
Qed.

(** X17: a double bottom that is emitted has its stop loss at the lower of
    the two troughs, its take profit as far above the neckline as the stop
    loss is below it, and its entry at the close of the last candle,
    strictly above the neckline; the troughs are at least
    [min_candles_between] candles apart and differ, relative to the first,
    by at most [tolerance]; the neckline is the high of a candle between
    them, ends included. *)
Theorem double_bottom_levels (cs : list candle) (s : signal) :
  detect_double_bottom cs = Ok (Some s) ->
  pattern s = double_bottom /\
  stop_loss s = py_min (trough1 s) (trough2 s) /\
  take_profit s = (neckline s + (neckline s - stop_loss s))%float /\
  (exists l, py_last cs = Ok l /\ entry s = close l) /\
  PrimFloat.ltb (neckline s) (entry s) = true /\
  exists p1 p2 d,
    py_index (map low cs) p1 = Ok (trough1 s) /\
    py_index (map low cs) p2 = Ok (trough2 s) /\
    p1 + min_candles_between <= p2 /\
    py_div (PrimFloat.abs (trough1 s - trough2 s)) (trough1 s) = Ok d /\
    PrimFloat.leb d tolerance = true /\
    (exists j c, p1 <= j <= p2 /\ nth_error cs j = Some c /\
                 neckline s = high c).
Proof.
  intros H. apply detect_double_bottom_pair in H.
  destruct H as (i & _ & H & _).
  apply bottom_pair_inv in H.
  destruct H as (p1 & p2 & d & bl & l & _ & _ & Hg & H1 & H2 & Hd & Ht
                 & Hbl & Hnk & Hl & He & Hlt & Hp & Hsl & Htp).
  assert (Hmin : 0 < min_candles_between) by (unfold min_candles_between; lia).
  split; [exact Hp|]. split; [exact Hsl|]. split; [exact Htp|].
  split; [exists l; split; assumption|]. split; [exact Hlt|].
  exists p1, p2, d. repeat split; try assumption; try lia.
  apply (neckline_between high cs p1 p2 bl); [exact Hbl|].
  apply py_max_list_In, Hnk.
Qed.

(** ** The message callback *)

Lemma on_message_position (data : message) (s : session) (p : position_t) :
  position (core s) = Some p ->
  position (core (fst (on_message data s))) = Some p.
Proof.
  intros Hp. unfold on_message, on_core, subscribe_candles.
  destruct (msg_authorize data) as [a|].
  { destruct (py_getitem "loginid" a); exact Hp. }
  destruct (msg_candles data) as [raw|].
  { pose proof (keeps_process_candles raw (core s) p Hp) as H.
    destruct (process_candles raw (core s)). exact H. }
  destruct (msg_ohlc data) as [o|].
  { pose proof (keeps_update_candle o (core s) p Hp) as H.
    destruct (update_candle o (core s)). exact H. }
  destruct (msg_error data) as [er|]; [|exact Hp].
  destruct (py_getitem "message" er); exact Hp.
Qed.

Lemma receive_ohlc (os : list ohlc) :
  forall s,
    core (receive (map ohlc_msg os) s) = feed os (core s) /\
    sent (receive (map ohlc_msg os) s) = sent s.
Proof.
  induction os as [|o os IH]; intros s; [split; reflexivity|].
  cbn [map receive fold_left feed].
  change (fold_left (fun s data => fst (on_message data s)) (map ohlc_msg os))
    with (receive (map ohlc_msg os)).
  change (fold_left (fun st o => fst (update_candle o st)) os)
    with (feed os).
  destruct (IH (fst (on_message (ohlc_msg o) s))) as [Hc Hs].
  rewrite Hc, Hs. unfold on_message, on_core. cbn [ohlc_msg msg_authorize
    msg_candles msg_ohlc]. destruct (update_candle o (core s)). split; reflexivity.
Qed.

Lemma on_message_candles (raw : list ohlc) (s : session) :
  core (fst (on_message (candles_msg raw) s)) =
  fst (process_candles raw (core s)) /\
  sent (fst (on_message (candles_msg raw) s)) = sent s.
Proof.
  unfold on_message, on_core.
  cbn [candles_msg msg_authorize msg_candles].
  destruct (process_candles raw (core s)). split; reflexivity.
Qed.

(** X18: over a whole connection, whatever messages arrive and whatever
    each call of [on_message] returns or raises, a position that is open
    stays the open position. *)
Theorem session_keeps_position (msgs : list message) (s : session)
    (p : position_t) :
  position (core s) = Some p ->
  position (core (receive msgs s)) = Some p.
Proof.
  revert s. induction msgs as [|data msgs IH]; intros s Hp; [exact Hp|].
  apply IH, on_message_position, Hp.
Qed.

(** X19: the usual connection: on the authorization one request is sent,
    for [lookback_period] candles of the symbol; when the history of at
    most that many well-formed candles and then the updates arrive, with
    strictly increasing times, the window holds the most recent
    [lookback_period] of all these candles, in order, and nothing more is
    sent. *)
Theorem usual_connection (s : session) (loginid : json) (raw os : list ohlc)
    (hist cs : list candle) :
  map make_candle raw = map Ok hist ->
  map make_candle os = map Ok cs ->
  length hist <= lookback_period ->
  increasing (map time (hist ++ cs)) = true ->
  let s' := receive (authorize_msg loginid :: candles_msg raw
                     :: map ohlc_msg os) s in
  candles (core s') =
  skipn (length (hist ++ cs) - lookback_period) (hist ++ cs) /\
  sent s' =
  sent s ++ [mk_request (symbol s) 1 lookback_period "latest" 1 "candles"
                        300 1].
Proof.
  intros Hraw Hos Hlen Hinc s'. subst s'.
  cbn [receive fold_left].
  change (fold_left (fun s data => fst (on_message data s)) (map ohlc_msg os))
    with (receive (map ohlc_msg os)).
  set (s1 := fst (on_message (authorize_msg loginid) s)).
  destruct (receive_ohlc os (fst (on_message (candles_msg raw) s1)))
    as [Hc Hs].
  destruct (on_message_candles raw s1) as [Hc2 Hs2].
  rewrite Hc, Hs, Hc2, Hs2. split; [|reflexivity].
  rewrite (feed_window cs os _ Hos);
    rewrite (process_candles_window raw hist _ Hraw); trivial.
Qed.

End Bot.

(** ** The theorems at concrete inputs *)

Lemma close_peaks_give_no_signal_witness :
  detect_double_top window20 = Ok None.
Proof.
  destruct close_peaks_give_no_signal as (_ & _ & H & _).
  apply H. reflexivity.
Defined.

(** The window of twenty candles starts with the highs [series14], its
    peaks are the indices 3 and 10, both highs are 10, their relative
    difference 0 is within the tolerance, the lowest low from index 3 to
    index 10 is 0.5 and the last close is below it: still no double top is
    emitted, as for the fourteen candles alone. *)
Lemma double_top_on_series_counterexample :
  firstn 14 (map high window20) = series14 /\
  find_peaks (map high window20) 3 = [3; 10] /\
  py_index (map high window20) 3 = Ok 10%float /\
  py_index (map high window20) 10 = Ok 10%float /\
  py_div (PrimFloat.abs (10 - 10)) 10 = Ok 0%float /\
  PrimFloat.leb 0 tolerance = true /\
  py_min_list (map low (firstn 8 (skipn 3 window20))) = Ok 0.5%float /\
  (exists l, py_last window20 = Ok l /\ PrimFloat.ltb (close l) 0.5 = true) /\
  detect_double_top window20 = Ok None /\
  detect_double_top window14 = Ok None.
Proof.
  repeat split; try reflexivity.
  eexists. split; reflexivity.
Qed.

Lemma window_is_fifo_witness :
  let cs := bars 0 (repeat (1, 1, 1)%float 60) in
  let c := mk_candle 18000 2 2 2 2 in
  let st := feed no_string any_time (map to_ohlc cs) init in
  length (candles st) <= lookback_period /\
  candles st = skipn 10 cs /\
  exists oldest rest,
    candles st = oldest :: rest /\
    candles (fst (update_candle no_string any_time (to_ohlc c) st)) = rest ++ [c].
Proof.
  intros cs c st.
  destruct (window_is_fifo no_string any_time init (map to_ohlc cs) cs)
    as (_ & H1 & H2 & H3);
    [reflexivity | vm_compute; reflexivity | vm_compute; reflexivity |].
  destruct (H3 (to_ohlc c) c eq_refl) as [_ H4]; [vm_compute; reflexivity|].
  destruct H4 as (oldest & rest & Ha & Hb & _); [vm_compute; reflexivity|].
  split; [exact H1|]. split; [exact H2|].
  exists oldest, rest. split; [exact Ha|exact Hb].
Defined.

Lemma malformed_update_rejected_witness :
  let st := mk_bot window14 None [] in
  let o := mk_ohlc (Some 4200%Z) (Some (JNumber 1)) (Some JNull)
                   (Some (JString "1.0.0")) None in
  exists e, update_candle no_string any_time o st = (st, Raise e).
Proof.
  intros st o.
  destruct (malformed_update_rejected no_string any_time st o) as (e & H & _);
    [reflexivity|].
  exists e. exact H.
Defined.

(** Times 0, 300, 600 are in the window when a candle of time 300 comes:
    it is appended, and the window holds two candles of that time. *)
Lemma earlier_time_counterexample :
  let cs := bars 0 [(1, 1, 1); (2, 2, 2); (3, 3, 3)]%float in
  let c := mk_candle 300 5 5 5 5 in
  let st := feed no_string any_time (map to_ohlc cs) init in
  let st' := fst (update_candle no_string any_time (to_ohlc c) st) in
  candles st = cs /\
  (exists x, In x (candles st) /\ time x = time c) /\
  candles st' = cs ++ [c] /\
  ~ NoDup (map time (candles st')).
Proof.
  intros cs c st st'.
  split; [reflexivity|]. split.
  - exists (mk_candle 300 2 2 2 2). split; [right; left|]; reflexivity.
  - split; [reflexivity|].
    intros H. rewrite (NoDup_count_occ Z.eq_dec) in H.
    specialize (H 300%Z). vm_compute in H. lia.
Qed.

Lemma upsert_on_last_time_witness :
  let cs := bars 0 [(1, 1, 1); (2, 2, 2)]%float ++ bars 300 [(3, 3, 3)]%float in
  let st := mk_bot (bars 0 [(1, 1, 1); (2, 2, 2)]%float) None [] in
  let c := mk_candle 300 3 3 3 3 in
  candles (fst (update_candle no_string any_time (to_ohlc c) st)) =
  removelast (candles st) ++ [c] /\
  NoDup (map time (candles (feed no_string any_time (map to_ohlc cs) init))).
Proof.
  intros cs st c.
  destruct (upsert_on_last_time no_string any_time) as [H1 H2]. split.
  - apply (H1 st (to_ohlc c) c); reflexivity.
  - apply (H2 init (map to_ohlc cs) cs); reflexivity.
Defined.

Lemma same_time_replaces_last_witness :
  let c := mk_candle 3900 9 9 9 9 in
  update_candle no_string any_time (to_ohlc c) (mk_bot window14 None []) =
  (mk_bot (removelast window14 ++ [c]) None [], Ok tt).
Proof.
  intros c.
  apply (same_time_replaces_last no_string any_time (mk_bot window14 None [])
           (to_ohlc c) c (mk_candle 3900 0.5 1 0.5 0.5)); reflexivity.
Defined.

Lemma execute_twice_witness :
  let s := mk_signal double_top 110 110 100 99 110 90 in
  let p := mk_position PUT 99 110 90 in
  execute_trade PUT s init = (mk_bot [] (Some p) [Executing PUT; TradeLogged], Ok tt) /\
  execute_trade CALL s (mk_bot [] (Some p) [Executing PUT; TradeLogged]) =
  (mk_bot [] (Some p) [Executing PUT; TradeLogged; AlreadyInPosition], Ok tt).
Proof.
  intros s p. apply (execute_twice init PUT CALL s s). reflexivity.
Defined.

Lemma double_top_levels_witness :
  exists s, detect_double_top window_top = Ok (Some s) /\
            peak1 s = 110%float /\ peak2 s = 110%float /\
            neckline s = 100%float /\ entry s = 99%float /\
            stop_loss s = 110%float /\ take_profit s = 90%float.
Proof.
  set (s := mk_signal double_top 110 110 100 99 110 90).
  assert (H : detect_double_top window_top = Ok (Some s)) by reflexivity.
  exists s.
  destruct (double_top_levels window_top s H) as (_ & _ & _ & _ & Hx).
  destruct (Hx eq_refl eq_refl eq_refl) as [H1 H2].
  repeat split; try assumption; reflexivity.
Defined.

(** With order 0 no neighbour is compared and every index is returned. *)
Lemma order_zero_counterexample :
  strictly_increasing [1; 2; 3]%float = true /\
  2 * 0 < length [1; 2; 3]%float /\
  find_peaks [1; 2; 3]%float 0 = [0; 1; 2].
Proof.
  split; [reflexivity|]. split; [simpl; lia|reflexivity].
Qed.

Lemma increasing_has_no_peak_witness :
  find_peaks [1; 2; 3; 4; 5; 6; 7]%float 3 = [].
Proof.
  apply increasing_has_no_peak; [lia|reflexivity|simpl; lia].
Defined.

Lemma double_top_takes_the_slot_witness :
  let s1 := mk_signal double_top 210 210 202 150 210 194 in
  let s2 := mk_signal double_bottom 90 90 102 150 90 114 in
  analyze_patterns any_time (mk_bot window_both None []) =
  (mk_bot window_both (Some (mk_position PUT 150 210 194))
          [Analyzing 9900; DoubleTopDetected s1; Executing PUT; TradeLogged;
           DoubleBottomDetected s2; AlreadyInPosition],
   Ok tt).
Proof.
  intros s1 s2.
  apply (double_top_takes_the_slot any_time (mk_bot window_both None []) s1 s2
           (mk_candle 9900 150 152 148 150)); reflexivity.
Defined.

(** ** The further theorems at concrete inputs *)

Lemma extrema_ascending_inside_witness :
  find_peaks [1; 5; 1; 5; 1; 5]%float 3 = [] /\
  find_troughs [1; 5; 1; 5; 1; 5]%float 3 = [] /\
  (forall i, In i (find_peaks series14 3) -> 3 <= i /\ i + 3 < 14).
Proof.
  destruct (extrema_ascending_inside [1; 5; 1; 5; 1; 5]%float 3)
    as (_ & _ & _ & H).
  destruct (extrema_ascending_inside series14 3) as (_ & _ & Hin & _).
  destruct H as [Hp Ht]; [simpl; lia|].
  split; [exact Hp|]. split; [exact Ht|].
  intros i Hi. apply Hin. left. exact Hi.
Defined.

Lemma flat_series_all_extrema_witness :
  find_peaks (repeat 5%float 10) 3 = [3; 4; 5; 6] /\
  find_troughs (repeat 5%float 10) 3 = [3; 4; 5; 6].
Proof. apply (flat_series_all_extrema 5%float 10 3). reflexivity. Defined.

Lemma rising_lows_no_double_bottom_witness :
  detect_double_bottom (bars 0 [(2, 1, 1); (3, 2, 2); (4, 3, 3); (5, 4, 4); (6, 5, 5); (7, 6, 6); (8, 7, 7); (9, 8, 8); (10, 9, 9); (11, 10, 10); (12, 11, 11); (13, 12, 12); (14, 13, 13); (15, 14, 14); (16, 15, 15); (17, 16, 16); (18, 17, 17); (19, 18, 18); (20, 19, 19); (21, 20, 20); (22, 21, 21)]%float) = Ok None.
Proof.
  apply (rising_lows_no_double_bottom (bars 0 [(2, 1, 1); (3, 2, 2); (4, 3, 3); (5, 4, 4); (6, 5, 5); (7, 6, 6); (8, 7, 7); (9, 8, 8); (10, 9, 9); (11, 10, 10); (12, 11, 11); (13, 12, 12); (14, 13, 13); (15, 14, 14); (16, 15, 15); (17, 16, 16); (18, 17, 17); (19, 18, 18); (20, 19, 19); (21, 20, 20); (22, 21, 21)]%float)).
  vm_compute. reflexivity.
Defined.

Lemma position_is_never_replaced_witness :
  let p := mk_position PUT 150 210 194 in
  let st := mk_bot window_both (Some p) [] in
  position (fst (analyze_patterns any_time st)) = Some p /\
  position (fst (process_candles no_string any_time [] st)) = Some p.
Proof.
  intros p st.
  destruct (position_is_never_replaced no_string any_time st p eq_refl)
    as (_ & Ha & _ & Hl & _).
  split; [exact Ha|apply Hl].
Defined.

Lemma update_puts_candle_last_witness :
  let c := mk_candle 4200 9 9 9 9 in
  py_last (candles (fst (update_candle no_string any_time (to_ohlc c)
                           (mk_bot window14 None [])))) = Ok c.
Proof.
  intros c. apply update_puts_candle_last. reflexivity.
Defined.

Lemma update_never_shortens_witness :
  let st := mk_bot (bars 0 (repeat (1, 1, 1)%float 55)) None [] in
  let c := mk_candle 16500 2 2 2 2 in
  length (candles (fst (update_candle no_string any_time (to_ohlc c) st))) = 55.
Proof.
  intros st c.
  destruct (update_never_shortens no_string any_time st (to_ohlc c) c eq_refl)
    as (_ & _ & H).
  apply H. vm_compute. repeat constructor.
Defined.

Lemma update_survives_bad_time_witness :
  let c := mk_candle 4200 9 9 9 9 in
  update_candle no_string (fun _ => Raise OverflowError) (to_ohlc c)
                (mk_bot window14 None []) =
  (mk_bot (window14 ++ [c]) None [], Raise OverflowError).
Proof.
  intros c.
  apply (update_survives_bad_time no_string (fun _ => Raise OverflowError)
           (mk_bot window14 None []) (to_ohlc c) c OverflowError);
    reflexivity.
Defined.

Lemma load_replaces_window_witness :
  candles (fst (process_candles no_string any_time (map to_ohlc window_top)
                  (mk_bot window14 None []))) = window_top.
Proof.
  apply (load_replaces_window no_string any_time (map to_ohlc window_top)
           window_top (mk_bot window14 None [])).
  vm_compute. reflexivity.
Defined.

Lemma load_stops_at_malformed_witness :
  let bad := mk_ohlc (Some 4200%Z) (Some (JNumber 1)) None None None in
  process_candles no_string any_time
    (map to_ohlc window14 ++ bad :: map to_ohlc window14)
    (mk_bot window_top None []) =
  (mk_bot window14 None [], Raise (KeyError "high")).
Proof.
  intros bad.
  apply (load_stops_at_malformed no_string any_time (map to_ohlc window14)
           (map to_ohlc window14) bad window14 (KeyError "high")
           (mk_bot window_top None []));
    vm_compute; reflexivity.
Defined.

Lemma load_then_stream_witness :
  let hist := bars 0 (repeat (1, 1, 1)%float 40) in
  let cs := bars 12000 (repeat (2, 2, 2)%float 20) in
  candles (feed no_string any_time (map to_ohlc cs)
             (fst (process_candles no_string any_time (map to_ohlc hist) init)))
  = skipn 10 (hist ++ cs).
Proof.
  intros hist cs.
  apply (load_then_stream no_string any_time (map to_ohlc hist)
           (map to_ohlc cs) hist cs init);
    vm_compute; try reflexivity.
  repeat constructor.
Defined.

Lemma short_window_only_analyzes_witness :
  analyze_patterns any_time (mk_bot window14 None []) =
  (mk_bot window14 None [Analyzing 3900], Ok tt).
Proof.
  apply (short_window_only_analyzes any_time (mk_bot window14 None [])
           (mk_candle 3900 0.5 1 0.5 0.5)); try reflexivity.
  simpl. lia.
Defined.

Lemma double_top_only_divides_by_zero_witness :
  let w := map (fun c => mk_candle (time c) (open c) (high c - 110)
                                   (low c - 110) (close c - 110))%float
               window_top in
  detect_double_top w = Raise ZeroDivisionError /\
  (exists c, In c w /\ PrimFloat.eqb (high c) 0 = true) /\
  (exists r, detect_double_top window_top = Ok r).
Proof.
  intros w.
  assert (Hw : detect_double_top w = Raise ZeroDivisionError)
    by (vm_compute; reflexivity).
  destruct (double_top_only_divides_by_zero w) as [H1 _].
  destruct (double_top_only_divides_by_zero window_top) as [_ H2].
  split; [exact Hw|]. split.
  - apply (H1 ZeroDivisionError Hw).
  - apply H2. vm_compute. reflexivity.
Defined.

Lemma double_bottom_only_divides_by_zero_witness :
  let w := map (fun c => mk_candle (time c) (open c) (high c - 90)
                                   (low c - 90) (close c - 90))%float
               window_both in
  detect_double_bottom w = Raise ZeroDivisionError /\
  (exists c, In c w /\ PrimFloat.eqb (low c) 0 = true) /\
  (exists r, detect_double_bottom window_both = Ok r).
Proof.
  intros w.
  assert (Hw : detect_double_bottom w = Raise ZeroDivisionError)
    by (vm_compute; reflexivity).
  destruct (double_bottom_only_divides_by_zero w) as [H1 _].
  destruct (double_bottom_only_divides_by_zero window_both) as [_ H2].
  split; [exact Hw|]. split.
  - apply (H1 ZeroDivisionError Hw).
  - apply H2. vm_compute. reflexivity.
Defined.

Lemma update_returns_on_nonzero_prices_witness :
  let c := mk_candle 6000 98 99 97 98 in
  snd (update_candle no_string any_time (to_ohlc c)
                     (mk_bot window_top None [])) = Ok tt.
Proof.
  intros c.
  apply (update_returns_on_nonzero_prices no_string any_time
           (mk_bot window_top None []) (to_ohlc c) c);
    vm_compute; reflexivity.
Defined.

Lemma latest_pair_is_reported_witness :
  (exists i, scan_tops window_both (map high window_both)
               (find_peaks (map high window_both) 3) [i]
             = Ok (Some (mk_signal double_top 210 210 202 150 210 194))) /\
  (exists i, scan_bottoms window_both (map low window_both)
               (find_troughs (map low window_both) 3) [i]
             = Ok (Some (mk_signal double_bottom 90 90 102 150 90 114))).
Proof.
  split.
  - destruct (proj1 (latest_pair_is_reported window_both _) eq_refl)
      as (i & _ & H & _).
    exists i. exact H.
  - destruct (proj2 (latest_pair_is_reported window_both _) eq_refl)
      as (i & _ & H & _).
    exists i. exact H.
Defined.

Lemma double_top_confirmation_witness :
  let s := mk_signal double_top 110 110 100 99 110 90 in
  PrimFloat.ltb (entry s) (neckline s) = true /\
  exists j c, nth_error window_top j = Some c /\ low c = 100%float.
Proof.
  intros s.
  destruct (double_top_confirmation window_top s eq_refl)
    as (p1 & p2 & d & _ & _ & _ & _ & _ & (j & c & _ & Hc & Hn) & Hlt & _).
  split; [exact Hlt|].
  exists j, c. split; [exact Hc|symmetry; exact Hn].
Defined.

Lemma double_bottom_levels_witness :
  let s := mk_signal double_bottom 90 90 102 150 90 114 in
  detect_double_bottom window_both = Ok (Some s) /\
  stop_loss s = py_min (trough1 s) (trough2 s) /\
  PrimFloat.ltb (neckline s) (entry s) = true.
Proof.
  intros s.
  destruct (double_bottom_levels window_both s eq_refl)
    as (_ & Hsl & _ & _ & Hlt & _).
  split; [reflexivity|]. split; [exact Hsl|exact Hlt].
Defined.

Lemma session_keeps_position_witness :
  let p := mk_position PUT 150 210 194 in
  let s := mk_session (mk_bot window_both (Some p) []) "frxEURUSD" [] [] in
  position (core (receive no_string any_time
                    [authorize_msg (JString "CR1"); candles_msg [];
                     ohlc_msg (to_ohlc (mk_candle 10200 1 1 1 1))] s)) = Some p.
Proof.
  intros p s. apply session_keeps_position. reflexivity.
Defined.

Lemma usual_connection_witness :
  let hist := bars 0 (repeat (1, 1, 1)%float 40) in
  let cs := bars 12000 (repeat (2, 2, 2)%float 20) in
  let s := mk_session init "frxEURUSD" [] [] in
  let s' := receive no_string any_time
              (authorize_msg (JString "CR1") :: candles_msg (map to_ohlc hist)
               :: map ohlc_msg (map to_ohlc cs)) s in
  candles (core s') = skipn 10 (hist ++ cs) /\
  sent s' = [mk_request "frxEURUSD" 1 50 "latest" 1 "candles" 300 1].
Proof.
  intros hist cs s s'.
  apply (usual_connection no_string any_time s (JString "CR1")
           (map to_ohlc hist) (map to_ohlc cs) hist cs);
    vm_compute; try reflexivity.
  repeat constructor.
Defined.
